(** * chapterize: a shallow embedding of [audiobook.py]

    The file has two parts.  The first one embeds the program: the Python
    built-ins it calls ([str.strip], [str.split], [int], [float],
    [math.isclose], [sorted], ...), then the four classes [Anchor],
    [Chapter], [AudiobookPart] and [Audiobook], one module per class, with
    the names of the source.  The second part states and proves the
    properties of the program.

    Conventions.
    - A Python [str] is a [string]; a character is a code point below 256
      (the Latin-1 range), and the character classes below are those of
      Python on that range.
    - An exception is a value of [exn]; a call that can raise returns a
      [result].
    - Object identity (the operator [is]) is observable on anchors only, so
      an anchor carries the identity it was given when it was allocated, and
      the functions that allocate thread the interpreter state [Interp].
    - What the program gets from outside (current directory, directory
      listing, ID3 tags, the XML parser, the ffmpeg process) is collected in
      the class [Host]. *)

From Stdlib Require Import ZArith NArith List String Ascii Bool Lia.
From Stdlib Require Import DecimalString Sorted Permutation.
Import ListNotations.

Open Scope string_scope.
Open Scope Z_scope.

(** ** Exceptions and results

    [OSError], [ParseError] and [FFRuntimeError] are what [os.listdir],
    [ET.fromstring] and [FFmpeg.run] raise; the program raises the two
    with a message itself. *)

Inductive exn : Type :=
| ValueError
| TypeError
| IndexError
| AttributeError
| OSError
| ParseError
| FFRuntimeError
| NotImplementedError (msg : string)
| Exception (msg : string).

Inductive result (A : Type) : Type :=
| Ok (a : A)
| Raise (e : exn).

Arguments Ok {A} a.
Arguments Raise {A} e.

Definition bind {A B : Type} (r : result A) (k : A -> result B) : result B :=
  match r with
  | Ok a => k a
  | Raise e => Raise e
  end.

Declare Scope py_scope.
Delimit Scope py_scope with py.
Notation "x <- r ;; k" := (bind r (fun x => k))
  (at level 61, r at next level, right associativity) : py_scope.

(** [for x in l: body(x)], collecting one value per iteration; the first
    exception ends the loop. *)
Fixpoint for_each {A B : Type} (body : A -> result B) (l : list A)
  : result (list B) :=
  match l with
  | [] => Ok []
  | a :: l' =>
      match body a with
      | Raise e => Raise e
      | Ok b =>
          match for_each body l' with
          | Raise e => Raise e
          | Ok bs => Ok (b :: bs)
          end
      end
  end.

(** ** Strings *)

Module Str.

Definition code (c : ascii) : N := N_of_ascii c.

Definition between (lo hi : N) (c : ascii) : bool :=
  ((lo <=? code c) && (code c <=? hi))%N.

(** [str.isspace] on one character: TAB, LF, VT, FF, CR, FS, GS, RS, US,
    space, NEL (U+0085) and the no-break space (U+00A0). *)
Definition isspace (c : ascii) : bool :=
  between 9 13 c || between 28 32 c
  || (code c =? 133)%N || (code c =? 160)%N.

Definition isdecimal (c : ascii) : bool := between 48 57 c.

Definition isupper_ascii (c : ascii) : bool := between 65 90 c.

Definition islower_ascii (c : ascii) : bool := between 97 122 c.

(** [str.isalnum] on one character.  Above U+007F the alphanumeric code
    points are U+00AA, U+00B2, U+00B3, U+00B5, U+00B9, U+00BA,
    U+00BC..U+00BE, U+00C0..U+00D6, U+00D8..U+00F6 and U+00F8..U+00FF. *)
Definition isalnum (c : ascii) : bool :=
  isdecimal c || isupper_ascii c || islower_ascii c
  || (code c =? 170)%N || between 178 179 c || (code c =? 181)%N
  || between 185 186 c || between 188 190 c
  || between 192 214 c || between 216 246 c || between 248 255 c.

(** The class [\w] of [re] for a [str] pattern: alphanumeric or underscore. *)
Definition isword (c : ascii) : bool :=
  isalnum c || (code c =? 95)%N.

Fixpoint lstrip (s : string) : string :=
  match s with
  | String c s' => if isspace c then lstrip s' else s
  | EmptyString => EmptyString
  end.

Fixpoint rstrip (s : string) : string :=
  match s with
  | String c s' =>
      match rstrip s' with
      | EmptyString => if isspace c then EmptyString else String c EmptyString
      | r => String c r
      end
  | EmptyString => EmptyString
  end.

(** [s.strip()] *)
Definition strip (s : string) : string := rstrip (lstrip s).

(** [s.split(sep)] for a separator of one character: [n] separators give
    [n + 1] fields, and the empty string gives one empty field. *)
Fixpoint split (sep : ascii) (s : string) : list string :=
  match s with
  | EmptyString => [EmptyString]
  | String c s' =>
      if Ascii.eqb c sep then EmptyString :: split sep s'
      else
        match split sep s' with
        | f :: fs => String c f :: fs
        | [] => [String c EmptyString]
        end
  end.

Fixpoint map (f : ascii -> ascii) (s : string) : string :=
  match s with
  | EmptyString => EmptyString
  | String c s' => String (f c) (map f s')
  end.

Fixpoint filter (keep : ascii -> bool) (s : string) : string :=
  match s with
  | EmptyString => EmptyString
  | String c s' => if keep c then String c (filter keep s') else filter keep s'
  end.

(** [s.replace(a, b)] for [a] and [b] of one character. *)
Definition replace (a b : ascii) (s : string) : string :=
  map (fun c => if Ascii.eqb c a then b else c) s.

(** [s.upper()] and [s.lower()].  On the Latin-1 letters the case pairs are
    32 apart, except that U+00D7 and U+00F7 are not letters.  The three
    lower-case letters whose upper case leaves the range (U+00B5, U+00DF,
    U+00FF) are left as they are. *)
Definition upper_char (c : ascii) : ascii :=
  if islower_ascii c || between 224 246 c || between 248 254 c
  then ascii_of_N (code c - 32) else c.

Definition lower_char (c : ascii) : ascii :=
  if isupper_ascii c || between 192 214 c || between 216 222 c
  then ascii_of_N (code c + 32) else c.

Definition upper (s : string) : string := map upper_char s.

Definition lower (s : string) : string := map lower_char s.

Definition startswith (s p : string) : bool := String.prefix p s.

(** [s.endswith(suffix)] *)
Definition endswith (s suffix : string) : bool :=
  let n := String.length s in
  let m := String.length suffix in
  (m <=? n)%nat && String.eqb (String.substring (n - m) m s) suffix.

Fixpoint repeat (c : ascii) (n : nat) : string :=
  match n with
  | O => EmptyString
  | S n' => String c (repeat c n')
  end.

(** [s.zfill(width)]: zeros are inserted after a leading sign. *)
Definition zfill (width : nat) (s : string) : string :=
  let pad := repeat "0" (width - String.length s) in
  match s with
  | String c s' =>
      if Ascii.eqb c "+" || Ascii.eqb c "-" then String c (pad ++ s')
      else pad ++ s
  | EmptyString => pad
  end.

(** [str(n)] for an [int]. *)
Definition of_int (n : Z) : string := NilZero.string_of_int (Z.to_int n).

End Str.

(** ** Numbers from text: [int(s)] and the literal grammar of [float(s)] *)

Module Num.

(** The blanks [int] and [float] accept around a number: the ASCII white
    space TAB, LF, VT, FF, CR and space, and the two Latin-1 spaces U+0085
    and U+00A0.  The separators U+001C..U+001F are white space for
    [str.strip] but not here. *)
Definition isblank (c : ascii) : bool :=
  Str.between 9 13 c || (Str.code c =? 32)%N
  || (Str.code c =? 133)%N || (Str.code c =? 160)%N.

Fixpoint lstrip (s : string) : string :=
  match s with
  | String c s' => if isblank c then lstrip s' else s
  | EmptyString => EmptyString
  end.

Fixpoint rstrip (s : string) : string :=
  match s with
  | String c s' =>
      match rstrip s' with
      | EmptyString => if isblank c then EmptyString else String c EmptyString
      | r => String c r
      end
  | EmptyString => EmptyString
  end.

Definition strip (s : string) : string := rstrip (lstrip s).

Definition digit (c : ascii) : Z := Z.of_N (Str.code c) - 48.

(** Reads [digit (["_"] digit)*] at the head of [s]: the digits read, most
    significant first, and the rest of [s]; [None] when [s] does not start
    with a digit. *)
Fixpoint digitpart (s : string) : option (list Z * string) :=
  match s with
  | EmptyString => None
  | String c s' =>
      if Str.isdecimal c then
        let more t :=
          match t with
          | Some (ds, r) => Some (digit c :: ds, r)
          | None => Some ([digit c], s')
          end in
        match s' with
        | String u s'' =>
            if Ascii.eqb u "_" then more (digitpart s'')
            else more (digitpart s')
        | EmptyString => more None
        end
      else None
  end.

Definition value (ds : list Z) : Z :=
  fold_left (fun acc d => 10 * acc + d) ds 0.

(** An optional sign: [true] for a minus. *)
Definition sign (s : string) : bool * string :=
  match s with
  | String c s' =>
      if Ascii.eqb c "-" then (true, s')
      else if Ascii.eqb c "+" then (false, s')
      else (false, s)
  | EmptyString => (false, s)
  end.

Definition signed (neg : bool) (n : Z) : Z := if neg then - n else n.

(** [int(s)] for a [str] argument, base ten.  (Recent interpreters refuse
    numbers of more than a few thousand digits, by a setting of the
    interpreter; the conversion here has no such limit.) *)
Definition int (s : string) : result Z :=
  let (neg, t) := sign (strip s) in
  match digitpart t with
  | Some (ds, EmptyString) => Ok (signed neg (value ds))
  | _ => Raise ValueError
  end.

(** The decimal part of a float literal, [digitpart ["." [digitpart]]] or
    ["." digitpart]: the digits before the point, those after it, and the
    rest of the input. *)
Definition decimal (s : string) : option (list Z * list Z * string) :=
  match digitpart s with
  | Some (ip, r) =>
      match r with
      | String c r' =>
          if Ascii.eqb c "." then
            match digitpart r' with
            | Some (fp, r'') => Some (ip, fp, r'')
            | None => Some (ip, [], r')
            end
          else Some (ip, [], r)
      | EmptyString => Some (ip, [], r)
      end
  | None =>
      match s with
      | String c r' =>
          if Ascii.eqb c "." then
            match digitpart r' with
            | Some (fp, r'') => Some ([], fp, r'')
            | None => None
            end
          else None
      | EmptyString => None
      end
  end.

(** The optional exponent [("e" | "E") ["+" | "-"] digitpart]: the exponent
    (zero when there is none) and the rest; [None] when an [e] is not
    followed by digits. *)
Definition exponent (s : string) : option (Z * string) :=
  match s with
  | String c s' =>
      if Ascii.eqb c "e" || Ascii.eqb c "E" then
        let (neg, t) := sign s' in
        match digitpart t with
        | Some (ds, r) => Some (signed neg (value ds), r)
        | None => None
        end
      else Some (0, s)
  | EmptyString => Some (0, s)
  end.

(** What a float literal denotes before rounding. *)
Inductive literal : Type :=
| LitNan
| LitInf (neg : bool)
| LitDec (neg : bool) (mantissa : Z) (exp10 : Z).
(* LitDec neg m e  is  (-1)^neg * m * 10^e *)

Definition float_literal (s : string) : option literal :=
  let (neg, t) := sign (strip s) in
  let l := Str.lower t in
  if String.eqb l "inf" || String.eqb l "infinity" then Some (LitInf neg)
  else if String.eqb l "nan" then Some LitNan
  else
    match decimal t with
    | Some (ip, fp, r) =>
        match exponent r with
        | Some (e, EmptyString) =>
            Some (LitDec neg (value (ip ++ fp)) (e - Z.of_nat (List.length fp)))
        | _ => None
        end
    | None => None
    end.

End Num.

(** ** Binary64 floating point

    A finite [float] is an integer number of units of 2^-1074, the spacing
    of the smallest doubles: every finite double is such a multiple, below
    2^1024 in magnitude, with at most 53 significant bits.  The sign of zero
    is not represented; the operations the program uses ([==], [<=], [fabs],
    [-], [*]) do not observe it. *)

Module Float.

Inductive float : Type :=
| NaN
| Inf (neg : bool)
| Fin (units : Z).

Definition unit_exp : Z := 1074.

(** The first magnitude, in units, that is too large for a double: 2^1024. *)
Definition overflow : Z := 2 ^ 2098.

(** The unit in the last place of the non-negative rational [n / d], counted
    in units: it keeps 53 significant bits and is never below one unit. *)
Definition ulp (n d : Z) : Z := 2 ^ Z.max (Z.log2 (n / d) - 52) 0.

(** The multiple of the unit in the last place nearest to [n / d], ties
    going to the even significand. *)
Definition nearest (n d : Z) : Z :=
  let ulp := ulp n d in
  let q := n / (d * ulp) in
  let r := n mod (d * ulp) in
  let q' :=
    if 2 * r <? d * ulp then q
    else if d * ulp <? 2 * r then q + 1
    else if Z.even q then q else q + 1 in
  q' * ulp.

(** Rounds [n / d] to the nearest double, with the sign [neg]; a magnitude
    that reaches 2^1024 overflows to an infinity. *)
Definition round (neg : bool) (n d : Z) : float :=
  let x := nearest n d in
  if x <? overflow then Fin (Num.signed neg x) else Inf neg.

(** The double nearest to [(-1)^neg * m * 10^e], for [0 <= m]. *)
Definition of_decimal (neg : bool) (m e : Z) : float :=
  if 0 <=? e then round neg (m * 10 ^ e * 2 ^ unit_exp) 1
  else round neg (m * 2 ^ unit_exp) (10 ^ (- e)).

(** [float(s)] for a [str] argument. *)
Definition of_str (s : string) : result float :=
  match Num.float_literal s with
  | Some Num.LitNan => Ok NaN
  | Some (Num.LitInf neg) => Ok (Inf neg)
  | Some (Num.LitDec neg m e) => Ok (of_decimal neg m e)
  | None => Raise ValueError
  end.

Definition fabs (x : float) : float :=
  match x with
  | NaN => NaN
  | Inf _ => Inf false
  | Fin u => Fin (Z.abs u)
  end.

Definition isinf (x : float) : bool :=
  match x with
  | Inf _ => true
  | _ => false
  end.

(** [x == y] *)
Definition eqb (x y : float) : bool :=
  match x, y with
  | Fin u, Fin v => u =? v
  | Inf s, Inf t => Bool.eqb s t
  | _, _ => false
  end.

(** [x <= y] *)
Definition leb (x y : float) : bool :=
  match x, y with
  | NaN, _ | _, NaN => false
  | Inf true, _ => true
  | _, Inf false => true
  | Inf false, _ => false
  | _, Inf true => false
  | Fin u, Fin v => u <=? v
  end.

(** [x < y] *)
Definition ltb (x y : float) : bool :=
  match x, y with
  | NaN, _ | _, NaN => false
  | Inf true, Inf true => false
  | Inf true, _ => true
  | Inf false, _ => false
  | Fin _, Inf neg => negb neg
  | Fin u, Fin v => u <? v
  end.

(** [x - y] *)
Definition sub (x y : float) : float :=
  match x, y with
  | NaN, _ | _, NaN => NaN
  | Inf s, Inf t => if Bool.eqb s t then NaN else Inf s
  | Inf s, Fin _ => Inf s
  | Fin _, Inf t => Inf (negb t)
  | Fin u, Fin v => round (u - v <? 0) (Z.abs (u - v)) 1
  end.

(** [x * y] *)
Definition mul (x y : float) : float :=
  match x, y with
  | NaN, _ | _, NaN => NaN
  | Inf s, Inf t => Inf (xorb s t)
  | Inf s, Fin v => if v =? 0 then NaN else Inf (xorb s (v <? 0))
  | Fin u, Inf t => if u =? 0 then NaN else Inf (xorb (u <? 0) t)
  | Fin u, Fin v =>
      round (xorb (u <? 0) (v <? 0)) (Z.abs u * Z.abs v) (2 ^ unit_exp)
  end.

(** The literals of the program, and the default of [math.isclose]. *)
Definition lit_0_000 : float := of_decimal false 0 (-3).
Definition lit_0_01 : float := of_decimal false 1 (-2).
Definition default_rel_tol : float := of_decimal false 1 (-9).

(** [math.isclose(a, b, rel_tol=rel_tol, abs_tol=abs_tol)], as CPython
    computes it. *)
Definition isclose (a b rel_tol abs_tol : float) : result bool :=
  if ltb rel_tol (Fin 0) || ltb abs_tol (Fin 0) then Raise ValueError
  else if eqb a b then Ok true
  else if isinf a || isinf b then Ok false
  else
    let diff := fabs (sub b a) in
    Ok (leb diff (fabs (mul rel_tol b))
        || leb diff (fabs (mul rel_tol a))
        || leb diff abs_tol).

End Float.

(** ** [sorted] on a list of strings

    Strings are ordered by code point, lexicographically ([String.leb]).
    The order is total and antisymmetric, so the sorted list does not depend
    on the sorting algorithm; insertion sort is used here. *)

Fixpoint insert (x : string) (l : list string) : list string :=
  match l with
  | [] => [x]
  | y :: l' => if String.leb x y then x :: l else y :: insert x l'
  end.

Fixpoint sorted (l : list string) : list string :=
  match l with
  | [] => []
  | x :: l' => insert x (sorted l')
  end.

(** ** [os.path] (POSIX) *)

Module os_path.

(** [os.path.join(a, b)] *)
Definition join (a b : string) : string :=
  if Str.startswith b "/" then b
  else if String.eqb a "" || Str.endswith a "/" then a ++ b
  else a ++ "/" ++ b.

(** [os.path.basename(p)]: what follows the last slash of [p]. *)
Definition basename (p : string) : string :=
  List.last (Str.split "/" p) "".

End os_path.

(** ** The libraries the program drives *)

Module eyed3.

Record UserTextFrame : Type := {
  description : string;
  text : string
}.

Record Tag : Type := {
  user_text_frames : list UserTextFrame
}.

(** What [eyed3.load] returns for a file it recognises. *)
Record AudioFile : Type := {
  tag : option Tag
}.

End eyed3.

Module ET.

(** An [xml.etree.ElementTree.Element]; iterating over it yields its
    children. *)
#[warnings="-register-all"]
Inductive Element : Type :=
| mkElement (tag : string) (text : option string) (children : list Element).

Definition tag (e : Element) : string :=
  match e with mkElement t _ _ => t end.

Definition text (e : Element) : option string :=
  match e with mkElement _ t _ => t end.

Definition children (e : Element) : list Element :=
  match e with mkElement _ _ c => c end.

(** [e.find(name)] for a plain tag name: the first child with that tag. *)
Definition find (name : string) (e : Element) : option Element :=
  List.find (fun c => String.eqb (tag c) name) (children e).

End ET.

Module ffmpy.

(** An [FFmpeg(inputs=..., outputs=...)] object: each dictionary maps a
    file to its options ([None] for no option). *)
Record FFmpeg : Type := {
  inputs : list (string * option string);
  outputs : list (string * option string)
}.

End ffmpy.

(** What the host gives the program. *)
Class Host : Type := {
  (** [os.path.abspath] *)
  os_path_abspath : string -> string;
  (** [os.listdir] *)
  os_listdir : string -> result (list string);
  (** [eyed3.load]: [None] for a file that is not audio *)
  eyed3_load : string -> result (option eyed3.AudioFile);
  (** [ET.fromstring] *)
  ET_fromstring : string -> result ET.Element;
  (** how the ffmpeg process started by [FFmpeg.run] ends *)
  ffmpeg_exit : ffmpy.FFmpeg -> result unit
}.

(** ** Interpreter state

    [next_id] is the identity the next anchor object gets; [ffmpeg_runs]
    records the ffmpeg commands run so far, oldest first. *)

Record Interp : Type := {
  next_id : nat;
  ffmpeg_runs : list ffmpy.FFmpeg
}.

(** The state in which the module starts to load. *)
Definition boot : Interp := {| next_id := 0; ffmpeg_runs := [] |}.

(** A computation that can raise and reads or writes the interpreter
    state. *)
Definition M (A : Type) : Type := Interp -> result A * Interp.

Definition ret {A : Type} (a : A) : M A := fun st => (Ok a, st).

Definition raise {A : Type} (e : exn) : M A := fun st => (Raise e, st).

Definition lift {A : Type} (r : result A) : M A := fun st => (r, st).

Definition bindM {A B : Type} (m : M A) (k : A -> M B) : M B :=
  fun st =>
    match m st with
    | (Ok a, st') => k a st'
    | (Raise e, st') => (Raise e, st')
    end.

Notation "x <~ m ;; k" := (bindM m (fun x => k))
  (at level 61, m at next level, right associativity) : py_scope.

Fixpoint for_eachM {A B : Type} (body : A -> M B) (l : list A) : M (list B) :=
  match l with
  | [] => ret []
  | a :: l' =>
      bindM (body a) (fun b =>
      bindM (for_eachM body l') (fun bs => ret (b :: bs)))
  end.

(** [FFmpeg(...).run()]: the command is run, and the call raises when the
    process fails. *)
Definition FFmpeg_run `{Host} (ff : ffmpy.FFmpeg) : M unit :=
  fun st =>
    (ffmpeg_exit ff,
     {| next_id := next_id st; ffmpeg_runs := ffmpeg_runs st ++ [ff] |}).

Open Scope py_scope.

(** ** class Anchor *)

Module Anchor.

(** [id] is the identity of the object, which [is] compares; the other
    fields are the attributes [__init__] sets. *)
Record t : Type := {
  id : nat;
  _filepath : string;
  _time_hh : string;
  _time_mm : string;
  _time_ss : string
}.

(** [a is b] *)
Definition is_ (a b : t) : bool := Nat.eqb (id a) (id b).

Definition _split_time (time : string) : result (string * string * string) :=
  let time_split := Str.split ":" (Str.strip time) in
  match time_split with
  | [mm; ss] =>
      n <- Num.int mm ;;
      if 60 <=? n then
        Ok (Str.zfill 2 (Str.of_int (n / 60)),
            Str.zfill 2 (Str.of_int (n mod 60)), ss)
      else Ok ("00", mm, ss)
  | [hh; mm; ss] => Ok (hh, mm, ss)
  | _ => Raise (Exception ("Error while parsing time: " ++ time))
  end.

Definition __init__ `{Host} (filepath time : string) : M t :=
  fun st =>
    let fp :=
      if negb (String.eqb filepath "") then os_path_abspath filepath
      else "" in
    let fields :=
      if negb (String.eqb (Str.strip time) "") then _split_time time
      else Ok ("", "", "") in
    match fields with
    | Ok (hh, mm, ss) =>
        (Ok {| id := next_id st; _filepath := fp;
               _time_hh := hh; _time_mm := mm; _time_ss := ss |},
         {| next_id := S (next_id st); ffmpeg_runs := ffmpeg_runs st |})
    | Raise e => (Raise e, st)
    end.

Definition filepath (self : t) : string := _filepath self.

Definition time (self : t) : string :=
  _time_hh self ++ ":" ++ _time_mm self ++ ":" ++ _time_ss self.

Definition time_hh (self : t) : string := _time_hh self.

Definition time_mm (self : t) : string := _time_mm self.

Definition time_ss (self : t) : string := _time_ss self.

Definition is_start_anchor (self : t) : result bool :=
  mm <- Num.int (_time_mm self) ;;
  if mm =? 0 then
    ss <- Float.of_str (_time_ss self) ;;
    Float.isclose Float.lit_0_000 ss Float.default_rel_tol Float.lit_0_01
  else Ok false.

(** [Anchor.Unknown = Anchor('', '')] is the first anchor allocated, while
    the module loads. *)
Definition Unknown : t :=
  {| id := 0; _filepath := ""; _time_hh := "";
     _time_mm := ""; _time_ss := "" |}.

(** [repr(self)].  For another anchor than the sentinel the format
    arguments are evaluated: [os.path.basename(self._filepath)] first, then
    [self._time], an attribute that [__init__] never sets (it sets
    [_time_hh], [_time_mm] and [_time_ss]), so the call raises. *)
Definition __repr__ (self : t) : result string :=
  if is_ self Unknown then Ok "?"
  else
    let name := os_path.basename (_filepath self) in
    Raise AttributeError.

End Anchor.

(** The state once the module is loaded: [Anchor.Unknown] is allocated. *)
Definition loaded : Interp := {| next_id := 1; ffmpeg_runs := [] |}.

(** The states the program can be in after the module is loaded. *)
Definition running (st : Interp) : Prop := (1 <= next_id st)%nat.

(** ** class Chapter *)

Module Chapter.

Record t : Type := {
  _title : string;
  _start : Anchor.t;
  _end : Anchor.t
}.

(** [Chapter(title, start, end)]; [end] defaults to [Anchor.Unknown]. *)
Definition __init__ (title : string) (start end_ : Anchor.t) : t :=
  {| _title := title; _start := start; _end := end_ |}.

Definition start_anchor (self : t) : Anchor.t := _start self.

Definition end_anchor (self : t) : Anchor.t := _end self.

Definition title (self : t) : string := _title self.

Definition is_end_known (self : t) : bool :=
  negb (Anchor.is_ (_end self) Anchor.Unknown).

(** [self.end_anchor = val]: the chapter after the assignment. *)
Definition set_end_anchor (self : t) (val : Anchor.t) : t :=
  {| _title := _title self; _start := _start self; _end := val |}.

(** [repr(self)]: [str.format] writes the title as it is and each anchor
    through its [__repr__], the start before the end. *)
Definition __repr__ (self : t) : result string :=
  start <- Anchor.__repr__ (_start self) ;;
  end_ <- Anchor.__repr__ (_end self) ;;
  Ok (_title self ++ " [" ++ start ++ " -> " ++ end_ ++ "]").

End Chapter.

(** ** class AudiobookPart *)

Module AudiobookPart.

Record t : Type := {
  _filepath : string;
  _chapters : option (list Chapter.t)
}.

(** [None.attr] raises; so does a method call on [None]. *)
Definition attr {A : Type} (o : option A) : result A :=
  match o with
  | Some a => Ok a
  | None => Raise AttributeError
  end.

Definition _read_raw_markers `{Host} (self_filepath : string)
  : result (option string) :=
  loaded_file <- eyed3_load self_filepath ;;
  audio_file <- attr loaded_file ;;
  tag <- attr (eyed3.tag audio_file) ;;
  Ok (option_map eyed3.text
        (List.find
           (fun user_text_frame =>
              String.eqb
                (Str.strip (Str.lower (eyed3.description user_text_frame)))
                "overdrive mediamarkers")
           (eyed3.user_text_frames tag))).

(** The [Name] and [Time] texts of one marker, both stripped. *)
Definition marker_fields (marker : ET.Element) : result (string * string) :=
  name <- attr (ET.find "Name" marker) ;;
  name_text <- attr (ET.text name) ;;
  time <- attr (ET.find "Time" marker) ;;
  time_text <- attr (ET.text time) ;;
  Ok (Str.strip name_text, Str.strip time_text).

Definition _read_chapters `{Host} (self_filepath : string)
  : M (option (list Chapter.t)) :=
  raw_markers <~ lift (_read_raw_markers self_filepath) ;;
  match raw_markers with
  | None => ret None
  | Some raw =>
      markers <~ lift (ET_fromstring raw) ;;
      chapters <~
        for_eachM
          (fun marker =>
             fields <~ lift (marker_fields marker) ;;
             start <~ Anchor.__init__ self_filepath (snd fields) ;;
             ret (Chapter.__init__ (fst fields) start Anchor.Unknown))
          (ET.children markers) ;;
      ret (Some chapters)
  end.

Definition __init__ `{Host} (filepath : string) : M t :=
  let self_filepath := os_path_abspath filepath in
  chapters <~ _read_chapters self_filepath ;;
  ret {| _filepath := self_filepath; _chapters := chapters |}.

(** [iter(self._chapters)]: the chapters the iteration yields. *)
Definition __iter__ (self : t) : result (list Chapter.t) :=
  match _chapters self with
  | Some l => Ok l
  | None => Raise TypeError
  end.

(** [self._chapters + []] *)
Definition chapters (self : t) : result (list Chapter.t) :=
  match _chapters self with
  | Some l => Ok (l ++ [])%list
  | None => Raise TypeError
  end.

Definition filepath (self : t) : string := _filepath self.

Definition filename (self : t) : string := os_path.basename (_filepath self).

End AudiobookPart.

(** ** The disk

    [create_chapters] asks the host whether a path exists and has it make
    directories.  A [Disk] is what the host offers for that; [os.makedirs]
    can raise, and returns the disk as it leaves it.  The files that ffmpeg
    writes are not part of the disk here: the program never looks at them. *)

Class Disk : Type := {
  disk : Type;
  (** [os.path.exists] *)
  os_path_exists : disk -> string -> bool;
  (** [os.makedirs] *)
  os_makedirs : disk -> string -> result unit * disk
}.

(** The interpreter state and the disk together. *)
Record World `{Disk} : Type := {
  interp : Interp;
  files : disk
}.

(** ** class Audiobook *)

Module Audiobook.

Record t : Type := {
  _dirpath : string;
  _parts : list AudiobookPart.t
}.

(** [_read_dir(dirname, ext)]; [ext] defaults to ['mp3']. *)
Definition _read_dir `{Host} (dirname ext : string) : result (list string) :=
  let ext := "." ++ ext in
  listing <- os_listdir dirname ;;
  Ok (List.map (os_path.join dirname)
        (List.filter
           (fun f => Str.endswith f ext || Str.endswith f (Str.upper ext))
           (sorted listing))).

Definition __init__ `{Host} (dirpath : string) : M t :=
  let self_dirpath := os_path_abspath dirpath in
  files <~ lift (_read_dir self_dirpath "mp3") ;;
  parts <~ for_eachM AudiobookPart.__init__ files ;;
  ret {| _dirpath := self_dirpath; _parts := parts |}.

Definition parts (self : t) : list AudiobookPart.t := (_parts self ++ [])%list.

(** The first loop of [merged_chapters]: the chapters of all the parts. *)
Fixpoint all_chapters (parts : list AudiobookPart.t) : result (list Chapter.t) :=
  match parts with
  | [] => Ok []
  | part :: parts' =>
      cs <- AudiobookPart.__iter__ part ;;
      rest <- all_chapters parts' ;;
      Ok (cs ++ rest)%list
  end.

(** The body of the second loop. *)
Definition merge_pair (ps : Chapter.t * Chapter.t) : result Chapter.t :=
  let (pred, succ) := ps in
  at_start <- Anchor.is_start_anchor (Chapter.start_anchor succ) ;;
  Ok (Chapter.__init__ (Chapter.title pred) (Chapter.start_anchor pred)
        (if at_start then Anchor.Unknown else Chapter.start_anchor succ)).

(** [l[-1]] *)
Definition last_item {A : Type} (l : list A) : result A :=
  match List.rev l with
  | a :: _ => Ok a
  | [] => Raise IndexError
  end.

Definition merged_chapters (self : t) : result (list Chapter.t) :=
  chapters <- all_chapters (_parts self) ;;
  merged <-
    for_each merge_pair (List.combine (List.removelast chapters) (List.tl chapters)) ;;
  final <- last_item chapters ;;
  let final_chapter :=
    Chapter.__init__ (Chapter.title final) (Chapter.start_anchor final)
      Anchor.Unknown in
  Ok (merged ++ [final_chapter])%list.

Definition keep_char (c : ascii) : bool :=
  Ascii.eqb c "-" || Str.isword c || Ascii.eqb c ".".

(** [re.sub(r'(?u)[^-\w.]', '', filename)] after [strip] and [replace]. *)
Definition _sanitize_filename (filename : string) : string :=
  let filename := Str.replace " " "_" (Str.strip filename) in
  Str.filter keep_char filename.

Definition _split `{Host} (idx : Z) (chapter : Chapter.t) (out_path : string)
  : M unit :=
  let out_path :=
    os_path.join out_path
      (_sanitize_filename (Str.of_int idx ++ " " ++ Chapter.title chapter)
       ++ ".mp3") in
  let start := Chapter.start_anchor chapter in
  let end_ := Chapter.end_anchor chapter in
  if Anchor.is_ end_ Anchor.Unknown then
    FFmpeg_run
      {| ffmpy.inputs := [(Anchor.filepath start, None)];
         ffmpy.outputs :=
           [(out_path, Some ("-c copy -ss " ++ Anchor.time start))] |}
  else if String.eqb (Anchor.filepath start) (Anchor.filepath end_) then
    FFmpeg_run
      {| ffmpy.inputs := [(Anchor.filepath start, None)];
         ffmpy.outputs :=
           [(out_path,
             Some ("-c copy -ss " ++ Anchor.time start
                   ++ " -to " ++ Anchor.time end_))] |}
  else raise (NotImplementedError "Merging of files is not supported yet").

(** [iter(self._parts)]: the parts the iteration yields. *)
Definition __iter__ (self : t) : list AudiobookPart.t := _parts self.

Definition _create_subpath `{Disk} (self : t) (subdir : string) (d : disk)
  : result string * disk :=
  let out_path := os_path.join (_dirpath self) subdir in
  if negb (os_path_exists d out_path) then
    match os_makedirs d out_path with
    | (Ok _, d') => (Ok out_path, d')
    | (Raise e, d') => (Raise e, d')
    end
  else (Ok out_path, d).

(** The loop of [create_chapters], from the index [idx] on. *)
Fixpoint split_each `{Host} (idx : Z) (chapters : list Chapter.t)
    (out_path : string) : M unit :=
  match chapters with
  | [] => ret tt
  | chapter :: chapters' =>
      _ <~ _split idx chapter out_path ;;
      split_each (idx + 1) chapters' out_path
  end.

Definition create_chapters `{Host} `{Disk} (self : t) (out_subdir : string)
    (w : World) : result unit * World :=
  match merged_chapters self with
  | Raise e => (Raise e, w)
  | Ok chapters =>
      match _create_subpath self out_subdir (files w) with
      | (Raise e, d) => (Raise e, {| interp := interp w; files := d |})
      | (Ok out_path, d) =>
          let (r, st) := split_each 1 chapters out_path (interp w) in
          (r, {| interp := st; files := d |})
      end
  end.

End Audiobook.

(** ** Words of the specification *)

(** The number of occurrences of [sep] in [s]. *)
Fixpoint count (sep : ascii) (s : string) : nat :=
  match s with
  | EmptyString => O
  | String c s' => if Ascii.eqb c sep then S (count sep s') else count sep s'
  end.

(** The number of colon-delimited fields of a raw time string. *)
Definition fields (raw : string) : nat := S (count ":" raw).

(** All the characters of [s] satisfy [p]. *)
Fixpoint all_chars (p : ascii -> bool) (s : string) : bool :=
  match s with
  | EmptyString => true
  | String c s' => p c && all_chars p s'
  end.

(** [t] is [s] without its leading and trailing white space. *)
Definition trimmed (s t : string) : Prop :=
  exists pre post,
    s = pre ++ t ++ post
    /\ all_chars Str.isspace pre = true
    /\ all_chars Str.isspace post = true
    /\ (forall c r, t = String c r -> Str.isspace c = false)
    /\ (forall r c, t = r ++ String c EmptyString -> Str.isspace c = false).

(** The two decimal digits of [v], for [0 <= v < 100]. *)
Definition two_digits (v : Z) : string :=
  String (ascii_of_N (Z.to_N (48 + v / 10)))
    (String (ascii_of_N (Z.to_N (48 + v mod 10))) EmptyString).

(** A word character, a hyphen or a period. *)
Definition filename_char (c : ascii) : bool :=
  Str.isword c || Ascii.eqb c "-" || Ascii.eqb c ".".

(** [x] is within the absolute tolerance [tol] of [c], in binary64:
    [|x - c| <= tol]. *)
Definition within_abs_tol (x c tol : Float.float) : bool :=
  Float.leb (Float.fabs (Float.sub x c)) tol.

(** The order of [sorted] on strings. *)
Definition string_le (a b : string) : Prop := String.leb a b = true.

(** The name [f] ends with [suffix]. *)
Definition has_suffix (suffix f : string) : Prop :=
  exists stem, f = stem ++ suffix.

(** The name [f] has the extension [ext], letter case apart. *)
Definition has_extension_nocase (ext f : string) : bool :=
  Str.endswith (Str.lower f) (Str.lower ("." ++ ext)).

(** The chapters of a book whose parts have the chapter lists [ls], in the
    order of the parts and, within a part, of its markers. *)
Definition concatenated (ls : list (list Chapter.t)) : list Chapter.t :=
  List.concat ls.

(** The command that copies the audio of [source] from [start] to [stop]
    (to the end of the file when there is no [stop]) into [target]. *)
Definition splitter (source start : string) (stop : option string)
    (target : string) : ffmpy.FFmpeg :=
  {| ffmpy.inputs := [(source, None)];
     ffmpy.outputs :=
       [(target,
         Some match stop with
              | None => "-c copy -ss " ++ start
              | Some t => "-c copy -ss " ++ start ++ " -to " ++ t
              end)] |}.

(** ** An example host

    Directory [/book] holds three audio files and a picture: [01.MP3]
    carries two markers, [02.mp3] has a tag without markers, and [03.Mp3]
    is not read.  Directory [/odd] holds one file whose second marker has a
    time that is no number. *)

Definition book_markers : string :=
  "<Markers><Marker><Name>Intro</Name><Time>0:00.000</Time></Marker>"
  ++ "<Marker><Name>One</Name><Time>75:30.500</Time></Marker></Markers>".

Definition odd_markers : string :=
  "<Markers><Marker><Name>Intro</Name><Time>0:00.000</Time></Marker>"
  ++ "<Marker><Name>One</Name><Time>a:b:c</Time></Marker></Markers>".

Definition leaf (tag text : string) : ET.Element :=
  ET.mkElement tag (Some text) [].

Definition marker (name time : string) : ET.Element :=
  ET.mkElement "Marker" None [leaf "Name" name; leaf "Time" time].

Definition example_host : Host := {|
  os_path_abspath := fun p => p;
  os_listdir := fun d =>
    if String.eqb d "/book" then Ok ["02.mp3"; "cover.jpg"; "01.MP3"; "03.Mp3"]
    else if String.eqb d "/odd" then Ok ["1.mp3"]
    else Raise OSError;
  eyed3_load := fun f =>
    let tagged frames :=
      Ok (Some {| eyed3.tag := Some {| eyed3.user_text_frames := frames |} |}) in
    if String.eqb f "/book/01.MP3" then
      tagged [ {| eyed3.description := "OverDrive MediaMarkers";
                  eyed3.text := book_markers |} ]
    else if String.eqb f "/book/02.mp3" then
      tagged [ {| eyed3.description := "comment"; eyed3.text := "ripped" |} ]
    else if String.eqb f "/odd/1.mp3" then
      tagged [ {| eyed3.description := "OverDrive MediaMarkers";
                  eyed3.text := odd_markers |} ]
    else Ok None;
  ET_fromstring := fun s =>
    if String.eqb s book_markers then
      Ok (ET.mkElement "Markers" None
            [marker "Intro" "0:00.000"; marker "One" "75:30.500"])
    else if String.eqb s odd_markers then
      Ok (ET.mkElement "Markers" None
            [marker "Intro" "0:00.000"; marker "One" "a:b:c"])
    else Raise ParseError;
  ffmpeg_exit := fun _ => Ok tt
|}.

(** The anchor [Anchor(filepath, time)] allocated with identity [i]. *)
Definition anchor_at (i : nat) (filepath hh mm ss : string) : Anchor.t :=
  {| Anchor.id := i; Anchor._filepath := filepath;
     Anchor._time_hh := hh; Anchor._time_mm := mm; Anchor._time_ss := ss |}.

(** The part of [/book/02.mp3]: a tag, and no marker in it. *)
Definition part_without_markers : AudiobookPart.t :=
  {| AudiobookPart._filepath := "/book/02.mp3";
     AudiobookPart._chapters := None |}.

(** The book of directory [/odd], as [Audiobook('/odd')] builds it in the
    state [loaded]. *)
Definition odd_chapters : list Chapter.t :=
  [ Chapter.__init__ "Intro" (anchor_at 1 "/odd/1.mp3" "00" "0" "00.000")
      Anchor.Unknown;
    Chapter.__init__ "One" (anchor_at 2 "/odd/1.mp3" "a" "b" "c")
      Anchor.Unknown ].

Definition odd_book : Audiobook.t :=
  {| Audiobook._dirpath := "/odd";
     Audiobook._parts :=
       [ {| AudiobookPart._filepath := "/odd/1.mp3";
            AudiobookPart._chapters := Some odd_chapters |} ] |}.

(** A part that ends within a chapter: the next part starts ten seconds into
    its first marker. *)
Definition straddling_book : Audiobook.t :=
  {| Audiobook._dirpath := "/s";
     Audiobook._parts :=
       [ {| AudiobookPart._filepath := "/s/1.mp3";
            AudiobookPart._chapters :=
              Some [ Chapter.__init__ "A" (anchor_at 1 "/s/1.mp3" "00" "00" "00")
                       Anchor.Unknown ] |};
         {| AudiobookPart._filepath := "/s/2.mp3";
            AudiobookPart._chapters :=
              Some [ Chapter.__init__ "B" (anchor_at 2 "/s/2.mp3" "00" "00" "10")
                       Anchor.Unknown ] |} ] |}.

(** A part whose tag holds markers, and none of them. *)
Definition part_of_no_chapter : AudiobookPart.t :=
  {| AudiobookPart._filepath := "/e/1.mp3";
     AudiobookPart._chapters := Some [] |}.

(** The four chapters of the merge example of the specification. *)
Definition example_chapters : list Chapter.t :=
  [ Chapter.__init__ "Ch1" (anchor_at 1 "/b/file1" "00" "00" "00") Anchor.Unknown;
    Chapter.__init__ "Ch2" (anchor_at 2 "/b/file1" "00" "10" "00") Anchor.Unknown;
    Chapter.__init__ "Ch3" (anchor_at 3 "/b/file2" "00" "00" "00") Anchor.Unknown;
    Chapter.__init__ "Ch4" (anchor_at 4 "/b/file2" "00" "05" "00") Anchor.Unknown ].

Definition example_book : Audiobook.t :=
  {| Audiobook._dirpath := "/b";
     Audiobook._parts :=
       [ {| AudiobookPart._filepath := "/b/file1";
            AudiobookPart._chapters := Some (firstn 2 example_chapters) |};
         {| AudiobookPart._filepath := "/b/file2";
            AudiobookPart._chapters := Some (skipn 2 example_chapters) |} ] |}.

(** ** Words for the further properties *)

(** No character of [s] is a slash. *)
Definition slash_free (s : string) : bool :=
  all_chars (fun c => negb (Ascii.eqb c "/")) s.

(** The chapter can be cut out of one file: it has no known end, or it
    ends in the file it starts in. *)
Definition in_one_file (c : Chapter.t) : bool :=
  Anchor.is_ (Chapter.end_anchor c) Anchor.Unknown
  || String.eqb (Anchor.filepath (Chapter.start_anchor c))
       (Anchor.filepath (Chapter.end_anchor c)).

(** The name of the file written for the chapter number [idx] titled
    [title], and its path under [out_path]. *)
Definition output_name (idx : Z) (title : string) : string :=
  Audiobook._sanitize_filename (Str.of_int idx ++ " " ++ title) ++ ".mp3".

Definition target (idx : Z) (title out_path : string) : string :=
  os_path.join out_path (output_name idx title).

(** The command that cuts the chapter number [idx] out of its file. *)
Definition command (out_path : string) (idx : Z) (c : Chapter.t)
  : ffmpy.FFmpeg :=
  splitter (Anchor.filepath (Chapter.start_anchor c))
    (Anchor.time (Chapter.start_anchor c))
    (if Anchor.is_ (Chapter.end_anchor c) Anchor.Unknown then None
     else Some (Anchor.time (Chapter.end_anchor c)))
    (target idx (Chapter.title c) out_path).

(** The chapters with their numbers, counted from [first]. *)
Fixpoint numbered (first : Z) (chapters : list Chapter.t)
  : list (Z * Chapter.t) :=
  match chapters with
  | [] => []
  | c :: chapters' => (first, c) :: numbered (first + 1) chapters'
  end.

Definition commands (out_path : string) (first : Z)
    (chapters : list Chapter.t) : list ffmpy.FFmpeg :=
  List.map (fun ic => command out_path (fst ic) (snd ic))
    (numbered first chapters).

(** The state [st] after the commands [ffs] have been run. *)
Definition after_runs (st : Interp) (ffs : list ffmpy.FFmpeg) : Interp :=
  {| next_id := next_id st; ffmpeg_runs := (ffmpeg_runs st ++ ffs)%list |}.

(** A disk as the list of the paths that exist; [os.makedirs] adds the
    path. *)
Definition example_disk : Disk := {|
  disk := list string;
  os_path_exists := fun d p => List.existsb (String.eqb p) d;
  os_makedirs := fun d p => (Ok tt, p :: d)
|}.

(** ** Auxiliary definitions of the proofs *)

(** The three fields [Anchor.__init__] computes from the raw time. *)
Definition init_fields (time : string) : result (string * string * string) :=
  if negb (String.eqb (Str.strip time) "") then Anchor._split_time time
  else Ok ("", "", "").

(** The pairs of neighbours [zip(chapters[:-1], chapters[1:])]. *)
Definition neighbours (chapters : list Chapter.t)
  : list (Chapter.t * Chapter.t) :=
  List.combine (List.removelast chapters) (List.tl chapters).

(** The last chapter of the book, which has no end. *)
Definition final_chapter (c : Chapter.t) : Chapter.t :=
  Chapter.__init__ (Chapter.title c) (Chapter.start_anchor c) Anchor.Unknown.

(** The two loops of [merged_chapters] as one recursion over the chapters. *)
Fixpoint merge_list (chapters : list Chapter.t) : result (list Chapter.t) :=
  match chapters with
  | [] => Raise IndexError
  | c :: rest =>
      match rest with
      | [] => Ok [final_chapter c]
      | next :: _ =>
          m <- Audiobook.merge_pair (c, next) ;;
          more <- merge_list rest ;;
          Ok (m :: more)
      end
  end.

(** The finite doubles stay below the overflow threshold. *)
Definition valid (x : Float.float) : Prop :=
  match x with
  | Float.Fin u => Z.abs u < Float.overflow
  | _ => True
  end.

(** At most 53 significant bits. *)
Definition representable (n : Z) : Prop :=
  exists q j, 0 <= j /\ 0 <= q <= 2 ^ 53 /\ n = q * 2 ^ j.

(** * Properties *)

(** ** The example host at work *)

(** Loading the module allocates [Anchor.Unknown], on every host. *)
Lemma module_import `{Host} :
  Anchor.__init__ "" "" boot = (Ok Anchor.Unknown, loaded).
Proof. reflexivity. Qed.

Lemma odd_book_built :
  fst (Audiobook.__init__ (H := example_host) "/odd" loaded) = Ok odd_book.
Proof. vm_compute. reflexivity. Qed.

Lemma part_without_markers_built :
  AudiobookPart.__init__ (H := example_host) "/book/02.mp3" loaded
  = (Ok part_without_markers, loaded).
Proof. vm_compute. reflexivity. Qed.

(** ** Strings *)

Lemma isspace_colon : Str.isspace ":" = false.
Proof. reflexivity. Qed.

Lemma count_lstrip (sep : ascii) (s : string) :
  Str.isspace sep = false -> count sep (Str.lstrip s) = count sep s.
Proof.
  intros Hsep. induction s as [|c s IH]; simpl; [reflexivity|].
  destruct (Str.isspace c) eqn:Hc; [|reflexivity].
  destruct (Ascii.eqb c sep) eqn:E; [|exact IH].
  apply Ascii.eqb_eq in E. congruence.
Qed.

Lemma count_rstrip (sep : ascii) (s : string) :
  Str.isspace sep = false -> count sep (Str.rstrip s) = count sep s.
Proof.
  intros Hsep. induction s as [|c s IH]; simpl; [reflexivity|].
  destruct (Str.rstrip s) as [|c' r] eqn:Hr.
  - simpl in IH. rewrite <- IH.
    destruct (Str.isspace c) eqn:Hc; simpl.
    + destruct (Ascii.eqb c sep) eqn:E; [|reflexivity].
      apply Ascii.eqb_eq in E. congruence.
    + destruct (Ascii.eqb c sep); reflexivity.
  - simpl. simpl in IH. rewrite IH. reflexivity.
Qed.

Lemma count_strip (sep : ascii) (s : string) :
  Str.isspace sep = false -> count sep (Str.strip s) = count sep s.
Proof.
  intros Hsep. unfold Str.strip.
  rewrite count_rstrip, count_lstrip by assumption. reflexivity.
Qed.

Lemma split_length (sep : ascii) (s : string) :
  List.length (Str.split sep s) = S (count sep s).
Proof.
  induction s as [|c s IH]; simpl; [reflexivity|].
  destruct (Ascii.eqb c sep); simpl.
  - rewrite IH. reflexivity.
  - destruct (Str.split sep s) as [|f fs]; simpl in *; [discriminate|exact IH].
Qed.

(** A raw time string has as many fields before as after [strip]. *)
Lemma split_strip_fields (raw : string) :
  List.length (Str.split ":" (Str.strip raw)) = fields raw.
Proof.
  rewrite split_length. unfold fields.
  rewrite count_strip by apply isspace_colon. reflexivity.
Qed.

(** ** [Anchor]: parsing a time *)

Lemma split_time_two (time mm ss : string) :
  Str.split ":" (Str.strip time) = [mm; ss] ->
  Anchor._split_time time =
    (n <- Num.int mm ;;
     if 60 <=? n then
       Ok (Str.zfill 2 (Str.of_int (n / 60)),
           Str.zfill 2 (Str.of_int (n mod 60)), ss)
     else Ok ("00", mm, ss)).
Proof. intros E. unfold Anchor._split_time. rewrite E. reflexivity. Qed.

Lemma split_time_three (time hh mm ss : string) :
  Str.split ":" (Str.strip time) = [hh; mm; ss] ->
  Anchor._split_time time = Ok (hh, mm, ss).
Proof. intros E. unfold Anchor._split_time. rewrite E. reflexivity. Qed.

Lemma split_time_other (time : string) :
  fields time <> 2%nat -> fields time <> 3%nat ->
  Anchor._split_time time
  = Raise (Exception ("Error while parsing time: " ++ time)).
Proof.
  intros H2 H3. rewrite <- split_strip_fields in H2, H3.
  unfold Anchor._split_time.
  destruct (Str.split ":" (Str.strip time)) as [|a [|b [|c [|d l]]]];
    simpl in *; try reflexivity; congruence.
Qed.

(** [_split_time] raises the parse exception only for a wrong number of
    fields. *)
Lemma split_time_exception (time msg : string) :
  Anchor._split_time time = Raise (Exception msg) ->
  fields time <> 2%nat /\ fields time <> 3%nat
  /\ msg = "Error while parsing time: " ++ time.
Proof.
  rewrite <- split_strip_fields. unfold Anchor._split_time.
  destruct (Str.split ":" (Str.strip time)) as [|a [|b [|c [|d l]]]];
    simpl; intros E; try (inversion E; subst; repeat split; congruence).
  destruct (Num.int a) as [n|e] eqn:En; simpl in E.
  - destruct (60 <=? n); discriminate.
  - unfold Num.int in En.
    destruct (Num.sign (Num.strip a)) as [neg t].
    destruct (Num.digitpart t) as [[ds [|]]|]; congruence.
Qed.

Lemma init_raises `{Host} (filepath time : string) (st : Interp) (e : exn) :
  fst (Anchor.__init__ filepath time st) = Raise e
  <-> init_fields time = Raise e.
Proof.
  unfold Anchor.__init__, init_fields.
  destruct (negb (String.eqb (Str.strip time) "")).
  - destruct (Anchor._split_time time) as [[[hh mm] ss]|e']; simpl;
      split; congruence.
  - simpl. split; congruence.
Qed.

Lemma init_returns `{Host} (filepath time hh mm ss : string) (st : Interp) :
  init_fields time = Ok (hh, mm, ss) ->
  Anchor.__init__ filepath time st
  = (Ok {| Anchor.id := next_id st;
           Anchor._filepath :=
             if negb (String.eqb filepath "") then os_path_abspath filepath
             else "";
           Anchor._time_hh := hh; Anchor._time_mm := mm;
           Anchor._time_ss := ss |},
     {| next_id := S (next_id st); ffmpeg_runs := ffmpeg_runs st |}).
Proof.
  unfold Anchor.__init__, init_fields. intros E.
  destruct (negb (String.eqb (Str.strip time) ""));
    [rewrite E; reflexivity | inversion E; reflexivity].
Qed.

(** C3, as the code has it: constructing an anchor raises the parse
    exception exactly when the raw time is not blank and splits into
    neither two nor three colon-delimited fields; the message then quotes
    the raw time.  A blank time gives the empty triple without error. *)
Theorem anchor_parse_error_iff `{Host} (filepath time : string) (st : Interp) :
  ((exists msg,
      fst (Anchor.__init__ filepath time st) = Raise (Exception msg))
   <-> Str.strip time <> "" /\ fields time <> 2%nat /\ fields time <> 3%nat)
  /\ (forall msg,
        fst (Anchor.__init__ filepath time st) = Raise (Exception msg) ->
        msg = "Error while parsing time: " ++ time)
  /\ (Str.strip time = "" ->
      exists a,
        fst (Anchor.__init__ filepath time st) = Ok a
        /\ Anchor.time_hh a = "" /\ Anchor.time_mm a = ""
        /\ Anchor.time_ss a = "").
Proof.
  split; [split|split].
  - intros [msg E]. apply init_raises in E. unfold init_fields in E.
    destruct (String.eqb (Str.strip time) "") eqn:B; simpl in E;
      [discriminate|].
    apply String.eqb_neq in B. apply split_time_exception in E. tauto.
  - intros (B & H2 & H3). eexists. apply init_raises. unfold init_fields.
    apply String.eqb_neq in B. rewrite B. simpl.
    apply split_time_other; assumption.
  - intros msg E. apply init_raises in E. unfold init_fields in E.
    destruct (String.eqb (Str.strip time) ""); simpl in E; [discriminate|].
    apply split_time_exception in E. tauto.
  - intros B. eexists. rewrite (init_returns filepath time "" "" "").
    + simpl. repeat split; reflexivity.
    + unfold init_fields. rewrite B. reflexivity.
Qed.

(** C3 as the specification words it fails on the empty string: it has one
    field, neither two nor three, and the anchor is built. *)
Lemma anchor_parse_blank_counterexample :
  fields "" <> 2%nat /\ fields "" <> 3%nat
  /\ fst (Anchor.__init__ (H := example_host) "/book/01.MP3" "" loaded)
     = Ok (anchor_at 1 "/book/01.MP3" "" "" "").
Proof. repeat split; vm_compute; congruence. Qed.

(** ** [Anchor]: minutes carried into hours *)

(** A property checked on [0 .. n-1] holds below [n]. *)
Lemma checked_below (p : Z -> bool) (n : nat) :
  forallb p (List.map Z.of_nat (seq 0 n)) = true ->
  forall v, 0 <= v < Z.of_nat n -> p v = true.
Proof.
  intros Hall v Hv. rewrite forallb_forall in Hall. apply Hall.
  apply in_map_iff. exists (Z.to_nat v). split; [lia|].
  apply in_seq. lia.
Qed.

Lemma zfill_two_digits (v : Z) :
  0 <= v < 100 -> Str.zfill 2 (Str.of_int v) = two_digits v.
Proof.
  intros Hv. apply String.eqb_eq.
  apply (checked_below
           (fun v => String.eqb (Str.zfill 2 (Str.of_int v)) (two_digits v))
           100); [vm_compute; reflexivity | exact Hv].
Qed.

Lemma two_digits_length (v : Z) : String.length (two_digits v) = 2%nat.
Proof. reflexivity. Qed.

Lemma repeat_length (c : ascii) (n : nat) : String.length (Str.repeat c n) = n.
Proof. induction n; simpl; congruence. Qed.

Lemma append_length (s t : string) :
  String.length (s ++ t) = (String.length s + String.length t)%nat.
Proof. induction s; simpl; congruence. Qed.

(** [zfill] pads up to the width and never shortens. *)
Lemma zfill_length (w : nat) (s : string) :
  String.length (Str.zfill w s) = Nat.max w (String.length s).
Proof.
  unfold Str.zfill. destruct s as [|c s]; simpl String.length.
  - rewrite repeat_length. lia.
  - destruct (Ascii.eqb c "+" || Ascii.eqb c "-"); simpl String.length;
      rewrite append_length, repeat_length; simpl String.length; lia.
Qed.

(** C4, as the code has it: for a two-field time [mm:ss] whose minutes read
    as the integer [n], the anchor keeps the seconds; when [60 <= n] its
    hours are [n / 60] and its minutes [n mod 60], in decimal, filled with
    zeros to a width of two: the minutes always have two digits, the hours
    have two digits when [n < 6000] and more above; when [n < 60] its hours
    are ["00"] and its minutes are the field as written. *)
Theorem two_field_time_carries `{Host}
    (filepath time mm ss : string) (n : Z) (st : Interp) :
  Str.split ":" (Str.strip time) = [mm; ss] ->
  Num.int mm = Ok n ->
  exists a,
    fst (Anchor.__init__ filepath time st) = Ok a
    /\ Anchor.time_ss a = ss
    /\ (60 <= n ->
        Anchor.time_hh a = Str.zfill 2 (Str.of_int (n / 60))
        /\ Anchor.time_mm a = two_digits (n mod 60)
        /\ (2 <= String.length (Anchor.time_hh a))%nat
        /\ (n < 6000 -> Anchor.time_hh a = two_digits (n / 60)))
    /\ (n < 60 -> Anchor.time_hh a = "00" /\ Anchor.time_mm a = mm).
Proof.
  intros Hsplit Hint.
  assert (Hblank : String.eqb (Str.strip time) "" = false).
  { apply String.eqb_neq. intros B. rewrite B in Hsplit. discriminate. }
  assert (Hfields :
            init_fields time
            = if 60 <=? n then
                Ok (Str.zfill 2 (Str.of_int (n / 60)),
                    Str.zfill 2 (Str.of_int (n mod 60)), ss)
              else Ok ("00", mm, ss)).
  { unfold init_fields. rewrite Hblank. simpl.
    rewrite (split_time_two _ _ _ Hsplit), Hint. reflexivity. }
  destruct (60 <=? n) eqn:Hn.
  - apply Z.leb_le in Hn. eexists.
    split; [rewrite (init_returns filepath time _ _ _ st Hfields); reflexivity|].
    unfold Anchor.time_hh, Anchor.time_mm, Anchor.time_ss.
    cbn [Anchor._time_hh Anchor._time_mm Anchor._time_ss].
    split; [reflexivity|]. split; [|lia].
    intros _. split; [reflexivity|].
    split; [apply zfill_two_digits; pose proof (Z.mod_pos_bound n 60); lia|].
    split; [rewrite zfill_length; lia|].
    intros Hlt. apply zfill_two_digits.
    split; [apply Z.div_pos; lia | apply Z.div_lt_upper_bound; lia].
  - apply Z.leb_gt in Hn. eexists.
    split; [rewrite (init_returns filepath time _ _ _ st Hfields); reflexivity|].
    unfold Anchor.time_hh, Anchor.time_mm, Anchor.time_ss.
    cbn [Anchor._time_hh Anchor._time_mm Anchor._time_ss].
    split; [reflexivity|]. split; [lia|].
    intros _. split; reflexivity.
Qed.

Lemma two_field_time_carries_witness :
  Str.split ":" (Str.strip "75:30") = ["75"; "30"]
  /\ Num.int "75" = Ok 75
  /\ exists a,
       fst (Anchor.__init__ (H := example_host) "/book/01.MP3" "75:30" loaded)
       = Ok a
       /\ Anchor.time_ss a = "30"
       /\ (60 <= 75 ->
           Anchor.time_hh a = Str.zfill 2 (Str.of_int (75 / 60))
           /\ Anchor.time_mm a = two_digits (75 mod 60)
           /\ (2 <= String.length (Anchor.time_hh a))%nat
           /\ (75 < 6000 -> Anchor.time_hh a = two_digits (75 / 60)))
       /\ (75 < 60 -> Anchor.time_hh a = "00" /\ Anchor.time_mm a = "75").
Proof.
  split; [reflexivity|]. split; [reflexivity|].
  apply (two_field_time_carries (H := example_host)
           "/book/01.MP3" "75:30" "75" "30" 75 loaded);
    reflexivity.
Defined.

(** The example of the specification: [75:30] is one hour, fifteen minutes
    and thirty seconds. *)
Lemma parse_75_30 :
  fst (Anchor.__init__ (H := example_host) "/book/01.MP3" "75:30" loaded)
  = Ok (anchor_at 1 "/book/01.MP3" "01" "15" "30").
Proof. reflexivity. Qed.

(** C4 as the specification words it fails from a hundred hours on: the
    hours of [6000:00] are ["100"], three digits. *)
Lemma hundred_hours_counterexample :
  Str.split ":" (Str.strip "6000:00") = ["6000"; "00"]
  /\ Num.int "6000" = Ok 6000
  /\ fst (Anchor.__init__ (H := example_host) "/book/01.MP3" "6000:00" loaded)
     = Ok (anchor_at 1 "/book/01.MP3" "100" "00" "00")
  /\ String.length "100" = 3%nat.
Proof. repeat split. Qed.

(** ** Binary64: what rounding can and cannot do *)

Lemma pow2_pos (e : Z) : 0 <= e -> 0 < 2 ^ e.
Proof. intros He. apply Z.pow_pos_nonneg; lia. Qed.

Section Nearest.

Variables n d : Z.
Hypothesis n_nonneg : 0 <= n.
Hypothesis d_pos : 0 < d.

Lemma ulp_pos : 0 < Float.ulp n d.
Proof. apply pow2_pos. lia. Qed.

(** The quotient, the remainder and the rounded quotient of [nearest]. *)
Lemma nearest_cases :
  exists q r,
    n = (d * Float.ulp n d) * q + r /\ 0 <= r < d * Float.ulp n d /\ 0 <= q
    /\ (Float.nearest n d = q * Float.ulp n d
        \/ (Float.nearest n d = (q + 1) * Float.ulp n d
            /\ d * Float.ulp n d <= 2 * r)).
Proof.
  pose proof ulp_pos as Hu.
  set (D := d * Float.ulp n d).
  assert (HD : 0 < D) by (unfold D; nia).
  exists (n / D), (n mod D).
  split; [apply Z.div_mod; lia|].
  split; [apply Z.mod_pos_bound; lia|].
  split; [apply Z.div_pos; lia|].
  unfold Float.nearest. cbv zeta. fold D.
  destruct (2 * (n mod D) <? D) eqn:Hlt; [left; reflexivity|].
  apply Z.ltb_ge in Hlt.
  destruct (D <? 2 * (n mod D)) eqn:Hgt;
    [right; split; [reflexivity|lia]|].
  destruct (Z.even (n / D)); [left; reflexivity|].
  right. split; [reflexivity|lia].
Qed.

Lemma nearest_nonneg : 0 <= Float.nearest n d.
Proof.
  pose proof ulp_pos as Hu.
  destruct nearest_cases as (q & r & _ & _ & Hq & [E | [E _]]); rewrite E; nia.
Qed.

(** Rounding at most doubles. *)
Lemma nearest_upper : Float.nearest n d * d <= 2 * n.
Proof.
  pose proof ulp_pos as Hu.
  destruct nearest_cases as (q & r & En & Hr & Hq & [E | [E Hhalf]]);
    rewrite E; nia.
Qed.

End Nearest.

(** Rounding an integer number of units at most halves it. *)
Lemma nearest_lower (n : Z) : 0 <= n -> n <= 2 * Float.nearest n 1.
Proof.
  intros Hn.
  destruct (nearest_cases n 1 Hn ltac:(lia)) as (q & r & En & Hr & Hq & Hcase).
  assert (Eu : Float.ulp n 1 = 2 ^ Z.max (Z.log2 n - 52) 0)
    by (unfold Float.ulp; rewrite Z.div_1_r; reflexivity).
  rewrite Eu in *. clear Eu.
  remember (2 ^ Z.max (Z.log2 n - 52) 0) as ulp eqn:Eu.
  assert (Hu : 0 < ulp) by (rewrite Eu; apply pow2_pos; lia).
  assert (Hsmall : 2 * r <= n).
  { destruct (Z.max_spec (Z.log2 n - 52) 0) as [[Hk Em] | [Hk Em]].
    - assert (ulp = 1) by (rewrite Eu, Em; reflexivity). lia.
    - assert (0 < n) by (destruct (Z.eq_dec n 0); [subst; simpl in Hk|]; lia).
      pose proof (Z.log2_spec n ltac:(lia)) as [Hlog _].
      assert (2 * ulp <= 2 ^ Z.log2 n).
      { rewrite Eu, Em.
        replace (Z.log2 n) with (Z.succ (Z.log2 n - 52) + 51) at 2 by lia.
        rewrite Z.pow_add_r, Z.pow_succ_r by lia.
        assert (1 <= 2 ^ 51) by (vm_compute; discriminate).
        pose proof (pow2_pos (Z.log2 n - 52) ltac:(lia)). nia. }
      lia. }
  destruct Hcase as [E | [E _]]; rewrite E; nia.
Qed.

Lemma signed_abs (neg : bool) (x : Z) : Z.abs (Num.signed neg x) = Z.abs x.
Proof. destruct neg; simpl; lia. Qed.

Lemma round_valid (neg : bool) (n d : Z) :
  0 <= n -> 0 < d -> valid (Float.round neg n d).
Proof.
  intros Hn Hd. unfold Float.round. cbv zeta.
  pose proof (nearest_nonneg n d Hn Hd) as Hx.
  destruct (Float.nearest n d <? Float.overflow) eqn:Hlt; simpl; [|exact I].
  apply Z.ltb_lt in Hlt. rewrite signed_abs. lia.
Qed.

(** ** Numbers from text *)

Lemma digit_nonneg (c : ascii) : Str.isdecimal c = true -> 0 <= Num.digit c.
Proof.
  unfold Str.isdecimal, Str.between, Num.digit. intros Hc.
  apply andb_true_iff in Hc. destruct Hc as [Hlo _].
  apply N.leb_le in Hlo. lia.
Qed.

(** The recursion of [digitpart] skips a character after an underscore, so
    the statement covers a string and the strings one character longer. *)
Lemma digitpart_nonneg_two (s : string) :
  (forall ds r, Num.digitpart s = Some (ds, r) -> Forall (fun d => 0 <= d) ds)
  /\ (forall c ds r,
        Num.digitpart (String c s) = Some (ds, r) ->
        Forall (fun d => 0 <= d) ds).
Proof.
  induction s as [|u s [IHs IHus]].
  - split; [discriminate|]. intros c ds r. simpl.
    destruct (Str.isdecimal c) eqn:Hc; [|discriminate].
    intros E. inversion E; subst. constructor; [apply digit_nonneg, Hc|constructor].
  - split; [exact (IHus u)|]. intros c ds r.
    change (Num.digitpart (String c (String u s))) with
      (if Str.isdecimal c then
         let more t :=
           match t with
           | Some (ds, r) => Some (Num.digit c :: ds, r)
           | None => Some ([Num.digit c], String u s)
           end in
         if Ascii.eqb u "_" then more (Num.digitpart s)
         else more (Num.digitpart (String u s))
       else None).
    destruct (Str.isdecimal c) eqn:Hc; [|discriminate].
    pose proof (digit_nonneg c Hc) as Hd. cbv zeta.
    destruct (Ascii.eqb u "_").
    + destruct (Num.digitpart s) as [[ds' r']|] eqn:E'; intros E;
        inversion E; subst; constructor; eauto.
    + destruct (Num.digitpart (String u s)) as [[ds' r']|] eqn:E'; intros E;
        inversion E; subst; constructor; eauto.
Qed.

Lemma digitpart_nonneg (s : string) (ds : list Z) (r : string) :
  Num.digitpart s = Some (ds, r) -> Forall (fun d => 0 <= d) ds.
Proof. apply digitpart_nonneg_two. Qed.

Lemma fold_value_nonneg (ds : list Z) (acc : Z) :
  Forall (fun d => 0 <= d) ds -> 0 <= acc ->
  0 <= fold_left (fun a d => 10 * a + d) ds acc.
Proof.
  intros Hds. revert acc. induction Hds as [|d ds Hd _ IH]; intros acc Hacc;
    cbn [fold_left]; [exact Hacc|]. cbv beta in Hd. apply IH. lia.
Qed.

Lemma value_nonneg (ds : list Z) :
  Forall (fun d => 0 <= d) ds -> 0 <= Num.value ds.
Proof. intros Hds. apply fold_value_nonneg; [exact Hds|lia]. Qed.

Lemma decimal_nonneg (s : string) (ip fp : list Z) (r : string) :
  Num.decimal s = Some (ip, fp, r) -> Forall (fun d => 0 <= d) (ip ++ fp).
Proof.
  unfold Num.decimal.
  destruct (Num.digitpart s) as [[ip' r']|] eqn:Ei.
  - pose proof (digitpart_nonneg _ _ _ Ei) as Hip.
    destruct r' as [|c r''].
    + intros E; inversion E; subst. rewrite app_nil_r. exact Hip.
    + destruct (Ascii.eqb c ".").
      * destruct (Num.digitpart r'') as [[fp' r3]|] eqn:Ef; intros E;
          inversion E; subst.
        -- apply Forall_app. split; [exact Hip|].
           exact (digitpart_nonneg _ _ _ Ef).
        -- rewrite app_nil_r. exact Hip.
      * intros E; inversion E; subst. rewrite app_nil_r. exact Hip.
  - destruct s as [|c r']; [discriminate|].
    destruct (Ascii.eqb c "."); [|discriminate].
    destruct (Num.digitpart r') as [[fp' r3]|] eqn:Ef; [|discriminate].
    intros E; inversion E; subst. exact (digitpart_nonneg _ _ _ Ef).
Qed.

Lemma float_literal_nonneg (s : string) (neg : bool) (m e : Z) :
  Num.float_literal s = Some (Num.LitDec neg m e) -> 0 <= m.
Proof.
  unfold Num.float_literal.
  destruct (Num.sign (Num.strip s)) as [sg t].
  destruct (String.eqb (Str.lower t) "inf" || String.eqb (Str.lower t) "infinity");
    [discriminate|].
  destruct (String.eqb (Str.lower t) "nan"); [discriminate|].
  destruct (Num.decimal t) as [[[ip fp] r]|] eqn:Ed; [|discriminate].
  destruct (Num.exponent r) as [[ex [|]]|]; try discriminate.
  intros E; inversion E; subst.
  apply value_nonneg. exact (decimal_nonneg _ _ _ _ Ed).
Qed.

Lemma of_decimal_valid (neg : bool) (m e : Z) :
  0 <= m -> valid (Float.of_decimal neg m e).
Proof.
  intros Hm. unfold Float.of_decimal.
  destruct (0 <=? e) eqn:He.
  - apply Z.leb_le in He. apply round_valid; [|lia].
    pose proof (pow2_pos Float.unit_exp ltac:(unfold Float.unit_exp; lia)).
    assert (0 <= 10 ^ e) by (apply Z.pow_nonneg; lia). nia.
  - apply Z.leb_gt in He. apply round_valid.
    + pose proof (pow2_pos Float.unit_exp ltac:(unfold Float.unit_exp; lia)).
      nia.
    + apply Z.pow_pos_nonneg; lia.
Qed.

(** [float(s)] never returns a finite number out of the range. *)
Lemma of_str_valid (s : string) (x : Float.float) :
  Float.of_str s = Ok x -> valid x.
Proof.
  unfold Float.of_str.
  destruct (Num.float_literal s) as [[| neg | neg m e]|] eqn:El; intros E;
    inversion E; subst; try exact I.
  apply of_decimal_valid. exact (float_literal_nonneg _ _ _ _ El).
Qed.

(** ** [math.isclose] around zero *)

Lemma lit_0_000_units : Float.lit_0_000 = Float.Fin 0.
Proof. vm_compute. reflexivity. Qed.

Lemma lit_0_01_units :
  exists a, Float.lit_0_01 = Float.Fin a /\ 0 < a.
Proof. eexists. split; [vm_compute; reflexivity | reflexivity]. Qed.

Lemma default_rel_tol_units :
  exists c,
    Float.default_rel_tol = Float.Fin c
    /\ 0 < c /\ 4 * c < 2 ^ Float.unit_exp.
Proof.
  eexists. split; [vm_compute; reflexivity|].
  split; vm_compute; reflexivity.
Qed.

Lemma fabs_round (neg : bool) (n d : Z) :
  0 <= n -> 0 < d ->
  Float.fabs (Float.round neg n d)
  = if Float.nearest n d <? Float.overflow then Float.Fin (Float.nearest n d)
    else Float.Inf false.
Proof.
  intros Hn Hd. unfold Float.round. cbv zeta.
  pose proof (nearest_nonneg n d Hn Hd).
  destruct (Float.nearest n d <? Float.overflow); simpl; [|reflexivity].
  rewrite signed_abs. f_equal. lia.
Qed.

(** The relative tolerance never decides a comparison with zero: for a
    relative tolerance [c] below a quarter, the distance of a non-zero [u]
    from zero exceeds both [c * u] and [c * 0], rounded. *)
Lemma rel_tol_never_decides (c u : Z) :
  0 < c -> 4 * c < 2 ^ Float.unit_exp ->
  u <> 0 -> Z.abs u < Float.overflow ->
  let diff := Float.fabs (Float.sub (Float.Fin u) (Float.Fin 0)) in
  Float.leb diff (Float.fabs (Float.mul (Float.Fin c) (Float.Fin u))) = false
  /\ Float.leb diff (Float.fabs (Float.mul (Float.Fin c) (Float.Fin 0)))
     = false.
Proof.
  intros Hc Hquarter Hu Hvalid diff. subst diff.
  pose proof (pow2_pos Float.unit_exp ltac:(unfold Float.unit_exp; lia)) as HP.
  unfold Float.sub, Float.mul.
  rewrite Z.sub_0_r. change (Z.abs 0) with 0. rewrite Z.mul_0_r.
  remember (2 ^ Float.unit_exp) as P eqn:EP.
  assert (Hcu : 0 <= Z.abs c * Z.abs u) by nia.
  rewrite !fabs_round by lia.
  pose proof (nearest_nonneg (Z.abs u) 1 ltac:(lia) ltac:(lia)) as Hy0.
  pose proof (nearest_lower (Z.abs u) ltac:(lia)) as Hy.
  pose proof (nearest_nonneg (Z.abs c * Z.abs u) P Hcu HP) as Hz0.
  pose proof (nearest_upper (Z.abs c * Z.abs u) P Hcu HP) as Hz.
  pose proof (nearest_nonneg 0 P ltac:(lia) HP) as Ho0.
  pose proof (nearest_upper 0 P ltac:(lia) HP) as Ho.
  remember (Float.nearest (Z.abs u) 1) as y eqn:Ey.
  remember (Float.nearest (Z.abs c * Z.abs u) P) as z eqn:Ez.
  remember (Float.nearest 0 P) as o eqn:Eo.
  remember Float.overflow as ov eqn:Eov.
  assert (Hone : 1 <= y) by lia.
  assert (Hzy : z < y) by nia.
  assert (Hzu : z < ov) by nia.
  assert (Hzero : o = 0) by nia.
  apply Z.ltb_lt in Hzu. rewrite Hzu.
  assert (Hoo : (o <? ov) = true) by (apply Z.ltb_lt; lia). rewrite Hoo.
  destruct (y <? ov); simpl; [|split; reflexivity].
  split; apply Z.leb_gt; lia.
Qed.

(** With a zero first argument and the default relative tolerance,
    [math.isclose] is the comparison with the absolute tolerance. *)
Lemma isclose_zero (x : Float.float) :
  valid x ->
  Float.isclose Float.lit_0_000 x Float.default_rel_tol Float.lit_0_01
  = Ok (within_abs_tol x Float.lit_0_000 Float.lit_0_01).
Proof.
  intros Hx. unfold within_abs_tol.
  destruct lit_0_01_units as (a & Ea & Ha).
  destruct default_rel_tol_units as (c & Ec & Hc & Hquarter).
  rewrite lit_0_000_units, Ea, Ec. unfold Float.isclose.
  replace (Float.ltb (Float.Fin c) (Float.Fin 0)) with false
    by (symmetry; apply Z.ltb_ge; lia).
  replace (Float.ltb (Float.Fin a) (Float.Fin 0)) with false
    by (symmetry; apply Z.ltb_ge; lia).
  cbn [orb].
  destruct x as [| s | u].
  - reflexivity.
  - destruct s; reflexivity.
  - cbn [Float.eqb Float.isinf orb].
    destruct (0 =? u) eqn:E0.
    + apply Z.eqb_eq in E0. subst u.
      assert (Ez : Float.fabs (Float.sub (Float.Fin 0) (Float.Fin 0))
                   = Float.Fin 0) by (vm_compute; reflexivity).
      rewrite Ez. cbn [Float.leb]. f_equal. symmetry. apply Z.leb_le. lia.
    + apply Z.eqb_neq in E0.
      destruct (rel_tol_never_decides c u Hc Hquarter ltac:(lia) Hx) as [R1 R2].
      cbv zeta in R1, R2. rewrite R1, R2. reflexivity.
Qed.

(** ** Binary64: the numbers [float] returns are kept by rounding *)

Lemma ulp_power (n d : Z) :
  exists j, 0 <= j /\ Float.ulp n d = 2 ^ j
            /\ ((j = 0 /\ Z.log2 (n / d) <= 52) \/ j = Z.log2 (n / d) - 52).
Proof.
  unfold Float.ulp.
  destruct (Z.max_spec (Z.log2 (n / d) - 52) 0) as [[Hk Em] | [Hk Em]];
    rewrite Em; eexists; (split; [|split; [reflexivity|]]); lia.
Qed.

(** [nearest] returns at most 53 significant bits. *)
Lemma nearest_representable (n d : Z) :
  0 <= n -> 0 < d -> representable (Float.nearest n d).
Proof.
  intros Hn Hd.
  destruct (nearest_cases n d Hn Hd) as (q & r & En & Hr & Hq & Hcase).
  destruct (ulp_power n d) as (j & Hj & Eu & Hjk).
  pose proof (ulp_pos n d) as Hu.
  assert (Hq53 : q < 2 ^ 53).
  { assert (Hqd : q = n / d / Float.ulp n d).
    { rewrite Z.div_div by lia.
      apply (Z.div_unique_pos n (d * Float.ulp n d) q r); lia. }
    assert (Hnd : 0 <= n / d) by (apply Z.div_pos; lia).
    destruct (Z.eq_dec (n / d) 0) as [E0 | Hpos].
    - rewrite E0, Z.div_0_l in Hqd by lia. subst q. apply pow2_pos. lia.
    - pose proof (Z.log2_spec (n / d) ltac:(lia)) as [_ Hup].
      pose proof (Z.log2_nonneg (n / d)) as Hlog.
      rewrite Hqd. apply Z.div_lt_upper_bound; [lia|].
      rewrite Eu. rewrite <- Z.pow_add_r by lia.
      destruct Hjk as [[-> Hk] | ->].
      + eapply Z.lt_le_trans; [exact Hup|].
        apply Z.pow_le_mono_r; lia.
      + replace (Z.log2 (n / d) - 52 + 53) with (Z.succ (Z.log2 (n / d)))
          by lia.
        exact Hup. }
  destruct Hcase as [E | [E _]]; rewrite E, Eu.
  - exists q, j. repeat split; lia.
  - exists (q + 1), j. repeat split; lia.
Qed.

(** A number with at most 53 significant bits is its own rounding. *)
Lemma nearest_exact (n : Z) : representable n -> Float.nearest n 1 = n.
Proof.
  intros (q & j & Hj & [Hq0 Hq53] & ->).
  destruct (Z.eq_dec q 0) as [-> | Hq]; [vm_compute; reflexivity|].
  assert (Hpj : 0 < 2 ^ j) by (apply pow2_pos; lia).
  assert (Hn : 0 < q * 2 ^ j) by nia.
  destruct (nearest_cases (q * 2 ^ j) 1 ltac:(lia) ltac:(lia))
    as (q' & r & En & Hr & Hq' & Hcase).
  destruct (ulp_power (q * 2 ^ j) 1) as (i & Hi & Eu & Hik).
  rewrite Z.div_1_r in Hik. rewrite Eu in *.
  assert (Hlog : Z.log2 (q * 2 ^ j) = Z.log2 q + j)
    by (rewrite Z.log2_mul_pow2; lia).
  assert (Hr0 : r = 0).
  { assert (Hdiv : exists m, q * 2 ^ j = m * 2 ^ i).
    { destruct Hik as [[-> _] | Ei].
      - exists (q * 2 ^ j). rewrite Z.pow_0_r. lia.
      - destruct (Z.le_gt_cases i j) as [Hle | Hgt].
        + exists (q * 2 ^ (j - i)).
          rewrite <- Z.mul_assoc, <- Z.pow_add_r by lia.
          replace (j - i + i) with j by lia. reflexivity.
        + assert (Hq53' : 53 <= Z.log2 q) by lia.
          assert (Eq : q = 2 ^ 53).
          { pose proof (Z.log2_spec q ltac:(lia)) as [Hlo _].
            assert (2 ^ 53 <= 2 ^ Z.log2 q)
              by (apply Z.pow_le_mono_r; lia).
            lia. }
          subst q. rewrite Z.log2_pow2 in * by lia.
          assert (Ei' : i = j + 1) by lia.
          exists (2 ^ 52). rewrite Ei', Z.pow_add_r by lia.
          change (2 ^ 53) with (2 ^ 52 * 2 ^ 1). ring. }
    destruct Hdiv as [m Em].
    assert (Hpi : 0 < 2 ^ i) by (apply pow2_pos; lia).
    assert (Hmod : (q * 2 ^ j) mod (1 * 2 ^ i) = r).
    { symmetry. apply (Z.mod_unique_pos _ _ q' r); lia. }
    rewrite Z.mul_1_l, Em, Z.mod_mul in Hmod by lia. lia. }
  subst r. assert (Hpi : 0 < 2 ^ i) by (apply pow2_pos; lia).
  destruct Hcase as [E | [_ Hhalf]]; [rewrite E; lia | lia].
Qed.

Lemma round_nonneg_exact (u : Z) :
  representable (Z.abs u) -> Z.abs u < Float.overflow ->
  Float.round (u <? 0) (Z.abs u) 1 = Float.Fin u.
Proof.
  intros Hrep Hov. unfold Float.round. cbv zeta.
  rewrite (nearest_exact _ Hrep).
  apply Z.ltb_lt in Hov. rewrite Hov. f_equal.
  unfold Num.signed. destruct (u <? 0) eqn:E;
    [apply Z.ltb_lt in E | apply Z.ltb_ge in E]; lia.
Qed.

(** The finite numbers [float] returns have at most 53 significant bits. *)
Lemma of_str_representable (s : string) (u : Z) :
  Float.of_str s = Ok (Float.Fin u) -> representable (Z.abs u).
Proof.
  unfold Float.of_str.
  destruct (Num.float_literal s) as [[| neg | neg m e]|] eqn:El; intros E;
    inversion E as [Ed]; clear E.
  pose proof (float_literal_nonneg _ _ _ _ El) as Hm.
  assert (Hround : forall n d, 0 <= n -> 0 < d ->
            Float.round neg n d = Float.Fin u -> representable (Z.abs u)).
  { intros n d Hn Hd. unfold Float.round. cbv zeta.
    destruct (Float.nearest n d <? Float.overflow); [|discriminate].
    intros Er. inversion Er. rewrite signed_abs.
    pose proof (nearest_nonneg n d Hn Hd).
    rewrite Z.abs_eq by lia. apply nearest_representable; assumption. }
  pose proof (pow2_pos Float.unit_exp ltac:(unfold Float.unit_exp; lia)).
  unfold Float.of_decimal in Ed. destruct (0 <=? e) eqn:He.
  - apply Z.leb_le in He. refine (Hround _ _ _ _ Ed); [|lia].
    assert (0 <= 10 ^ e) by (apply Z.pow_nonneg; lia). nia.
  - apply Z.leb_gt in He. refine (Hround _ _ _ _ Ed); [nia|].
    apply Z.pow_pos_nonneg; lia.
Qed.

(** The tolerance of [is_start_anchor], 0.01 as a double, in units. *)
Lemma lit_0_01_exact :
  Float.lit_0_01 = Float.Fin (5764607523034235 * 2 ^ 1015).
Proof. vm_compute. reflexivity. Qed.

(** For a number that [float] returns, the distance from zero within the
    tolerance is a comparison of magnitudes: no infinity, no NaN, and at
    most 5764607523034235 * 2^-59 in absolute value. *)
Lemma within_abs_tol_units (s : string) (x : Float.float) :
  Float.of_str s = Ok x ->
  within_abs_tol x Float.lit_0_000 Float.lit_0_01 = true
  <-> exists u, x = Float.Fin u /\ Z.abs u <= 5764607523034235 * 2 ^ 1015.
Proof.
  intros Ex. unfold within_abs_tol.
  rewrite lit_0_000_units, lit_0_01_exact.
  destruct x as [| neg | u].
  - split; [discriminate | intros (u & E & _); discriminate].
  - split; [destruct neg; discriminate | intros (u & E & _); discriminate].
  - pose proof (of_str_valid _ _ Ex) as Hov. simpl in Hov.
    pose proof (of_str_representable _ _ Ex) as Hrep.
    unfold Float.sub. rewrite Z.sub_0_r, (round_nonneg_exact u Hrep Hov).
    cbn [Float.fabs Float.leb]. rewrite Z.leb_le. split.
    + intros Hle. exists u. split; [reflexivity | exact Hle].
    + intros (u' & E & Hle). inversion E; subst. exact Hle.
Qed.

(** ** [Anchor.is_start_anchor] *)

Lemma is_start_anchor_unfold (a : Anchor.t) :
  Anchor.is_start_anchor a
  = match Num.int (Anchor.time_mm a) with
    | Raise e => Raise e
    | Ok mm =>
        if mm =? 0 then
          match Float.of_str (Anchor.time_ss a) with
          | Raise e => Raise e
          | Ok x => Ok (within_abs_tol x Float.lit_0_000 Float.lit_0_01)
          end
        else Ok false
    end.
Proof.
  unfold Anchor.is_start_anchor, Anchor.time_mm, Anchor.time_ss, bind.
  destruct (Num.int (Anchor._time_mm a)) as [mm|e]; [|reflexivity].
  destruct (mm =? 0); [|reflexivity].
  destruct (Float.of_str (Anchor._time_ss a)) as [x|e] eqn:Ex; [|reflexivity].
  apply isclose_zero. exact (of_str_valid _ _ Ex).
Qed.

(** C5: [is_start_anchor] returns true exactly when the minutes read as the
    integer 0 and the seconds read as a float within the absolute tolerance
    0.01 of 0.000, that is, a finite double of magnitude at most the double
    0.01 (5764607523034235 * 2^-59, counted below in units of 2^-1074); so
    it does for the minutes ["00"] with the seconds ["00.00"] or ["0.009"],
    and it returns false for the seconds ["0.02"] and for the minutes
    ["01"]. *)
Theorem is_start_anchor_iff :
  (forall a : Anchor.t,
     Anchor.is_start_anchor a = Ok true
     <-> Num.int (Anchor.time_mm a) = Ok 0
         /\ exists x,
              Float.of_str (Anchor.time_ss a) = Ok x
              /\ within_abs_tol x Float.lit_0_000 Float.lit_0_01 = true)
  /\ (forall a : Anchor.t,
        Anchor.is_start_anchor a = Ok true
        <-> Num.int (Anchor.time_mm a) = Ok 0
            /\ exists u,
                 Float.of_str (Anchor.time_ss a) = Ok (Float.Fin u)
                 /\ Z.abs u <= 5764607523034235 * 2 ^ 1015)
  /\ (forall i f hh,
        Anchor.is_start_anchor (anchor_at i f hh "00" "00.00") = Ok true
        /\ Anchor.is_start_anchor (anchor_at i f hh "00" "0.009") = Ok true
        /\ Anchor.is_start_anchor (anchor_at i f hh "00" "0.02") = Ok false
        /\ Anchor.is_start_anchor (anchor_at i f hh "01" "00") = Ok false).
Proof.
  assert (Hiff : forall a : Anchor.t,
            Anchor.is_start_anchor a = Ok true
            <-> Num.int (Anchor.time_mm a) = Ok 0
                /\ exists x,
                     Float.of_str (Anchor.time_ss a) = Ok x
                     /\ within_abs_tol x Float.lit_0_000 Float.lit_0_01
                        = true).
  { intros a. rewrite is_start_anchor_unfold. split.
    - destruct (Num.int (Anchor.time_mm a)) as [mm|e]; [|discriminate].
      destruct (mm =? 0) eqn:Emm; [|discriminate].
      apply Z.eqb_eq in Emm. subst mm.
      destruct (Float.of_str (Anchor.time_ss a)) as [x|e]; [|discriminate].
      intros E. inversion E as [Ew]. split; [reflexivity|].
      exists x. rewrite Ew. split; reflexivity.
    - intros (Emm & x & Ex & Ew). rewrite Emm, Ex, Ew. reflexivity. }
  split; [exact Hiff|]. split.
  - intros a. rewrite Hiff. split.
    + intros (Emm & x & Ex & Ew). split; [exact Emm|].
      destruct (proj1 (within_abs_tol_units _ _ Ex) Ew) as (u & -> & Hu).
      exists u. split; assumption.
    + intros (Emm & u & Ex & Hu). split; [exact Emm|].
      exists (Float.Fin u). split; [exact Ex|].
      apply (within_abs_tol_units _ _ Ex). exists u. split; [reflexivity|exact Hu].
  - intros i f hh. repeat split; vm_compute; reflexivity.
Qed.

(** A few doubles, as [float] reads them: 0.01 and 0.1, a tie that goes to
    the even significand, the largest double and the overflow above it, the
    smallest double and the underflow to zero below its half. *)
Lemma binary64_examples :
  Float.of_str "0.01" = Ok (Float.Fin (5764607523034235 * 2 ^ 1015))
  /\ Float.of_str "0.1" = Ok (Float.Fin (7205759403792794 * 2 ^ 1018))
  /\ Float.of_str "9007199254740993"
     = Ok (Float.Fin (9007199254740992 * 2 ^ 1074))
  /\ Float.of_str "1.7976931348623157e308"
     = Ok (Float.Fin (9007199254740991 * 2 ^ 2045))
  /\ Float.of_str "1.7976931348623159e308" = Ok (Float.Inf false)
  /\ Float.of_str "5e-324" = Ok (Float.Fin 1)
  /\ Float.of_str "2.4703282292062328e-324" = Ok (Float.Fin 1)
  /\ Float.of_str "2.4703282292062327e-324" = Ok (Float.Fin 0)
  /\ Float.of_str " -1_0.5e+1 " = Ok (Float.Fin (- 105 * 2 ^ 1074))
  /\ Float.of_str "-Infinity" = Ok (Float.Inf true)
  /\ Float.of_str "1e" = Raise ValueError.
Proof. repeat split; vm_compute; reflexivity. Qed.

(** The hours play no part: one hour sharp is a start anchor too; and an
    anchor whose minutes or seconds are no numbers cannot be tested. *)
Lemma is_start_anchor_examples :
  Anchor.is_start_anchor (anchor_at 1 "/b/file1" "01" "00" "00.000") = Ok true
  /\ Anchor.is_start_anchor (anchor_at 1 "/b/file1" "00" "00" "0.0100000000000000001")
     = Ok true
  /\ Anchor.is_start_anchor (anchor_at 1 "/b/file1" "00" "00" "0.010000000000000002")
     = Ok false
  /\ Anchor.is_start_anchor (anchor_at 1 "/b/file1" "00" "05" "xx") = Ok false
  /\ Anchor.is_start_anchor (anchor_at 1 "/b/file1" "00" "00" "xx")
     = Raise ValueError
  /\ Anchor.is_start_anchor Anchor.Unknown = Raise ValueError.
Proof. repeat split; vm_compute; reflexivity. Qed.

(** ** [str.strip] and the sanitized file name *)

Lemma lstrip_all_space (s : string) :
  all_chars Str.isspace s = true -> Str.lstrip s = "".
Proof.
  induction s as [|c s IH]; simpl; [reflexivity|].
  intros Hs. apply andb_true_iff in Hs. destruct Hs as [Hc Hs].
  rewrite Hc. exact (IH Hs).
Qed.

Lemma lstrip_app_space (pre s : string) :
  all_chars Str.isspace pre = true -> Str.lstrip (pre ++ s) = Str.lstrip s.
Proof.
  induction pre as [|c pre IH]; simpl; [reflexivity|].
  intros Hs. apply andb_true_iff in Hs. destruct Hs as [Hc Hs].
  rewrite Hc. exact (IH Hs).
Qed.

Lemma rstrip_all_space (s : string) :
  all_chars Str.isspace s = true -> Str.rstrip s = "".
Proof.
  induction s as [|c s IH]; simpl; [reflexivity|].
  intros Hs. apply andb_true_iff in Hs. destruct Hs as [Hc Hs].
  rewrite (IH Hs), Hc. reflexivity.
Qed.

Lemma rstrip_app_space (s post : string) :
  all_chars Str.isspace post = true -> Str.rstrip (s ++ post) = Str.rstrip s.
Proof.
  intros Hpost. induction s as [|c s IH]; simpl.
  - apply rstrip_all_space, Hpost.
  - rewrite IH. reflexivity.
Qed.

Lemma rstrip_head (c : ascii) (s : string) :
  Str.isspace c = false -> Str.rstrip (String c s) = String c (Str.rstrip s).
Proof.
  intros Hc. simpl. destruct (Str.rstrip s); [rewrite Hc|]; reflexivity.
Qed.

(** What [lstrip] removes is white space, and it leaves none in front. *)
Lemma lstrip_spec (s : string) :
  exists pre,
    s = pre ++ Str.lstrip s
    /\ all_chars Str.isspace pre = true
    /\ (forall c r, Str.lstrip s = String c r -> Str.isspace c = false).
Proof.
  induction s as [|c s (pre & E & Hpre & Hhead)]; simpl.
  - exists "". repeat split. discriminate.
  - destruct (Str.isspace c) eqn:Hc.
    + exists (String c pre). simpl. rewrite <- E, Hc, Hpre.
      repeat split. exact Hhead.
    + exists "". repeat split. intros c' r E'. inversion E'; subst. exact Hc.
Qed.

(** What [rstrip] removes is white space, and it leaves none at the end. *)
Lemma rstrip_spec (s : string) :
  exists post,
    s = Str.rstrip s ++ post
    /\ all_chars Str.isspace post = true
    /\ (forall r c, Str.rstrip s = r ++ String c "" -> Str.isspace c = false).
Proof.
  induction s as [|a s (post & E & Hpost & Hlast)]; simpl.
  - exists "". repeat split. intros [|b r] c E'; discriminate.
  - destruct (Str.rstrip s) as [|b t] eqn:Er.
    + simpl in E. subst post. destruct (Str.isspace a) eqn:Ha.
      * exists (String a s). simpl. rewrite Ha, Hpost.
        repeat split. intros [|b r] c E'; discriminate.
      * exists s. repeat split; [exact Hpost|].
        intros [|b [|b' r]] c E'; inversion E'; subst; assumption.
    + exists post. split; [simpl; rewrite E at 1; reflexivity|].
      split; [exact Hpost|].
      intros [|a' r] c E'; inversion E'; subst. eapply Hlast. eassumption.
Qed.

Lemma rstrip_fixed (t : string) :
  (forall r c, t = r ++ String c "" -> Str.isspace c = false) ->
  Str.rstrip t = t.
Proof.
  induction t as [|a t IH]; intros Hlast; [reflexivity|].
  simpl. rewrite IH.
  - destruct t as [|b t]; [|reflexivity].
    rewrite (Hlast "" a eq_refl). reflexivity.
  - intros r c E. apply (Hlast (String a r) c). simpl. rewrite E. reflexivity.
Qed.

(** [strip] trims. *)
Lemma strip_trimmed (s : string) : trimmed s (Str.strip s).
Proof.
  unfold Str.strip.
  destruct (lstrip_spec s) as (pre & E & Hpre & Hhead).
  destruct (rstrip_spec (Str.lstrip s)) as (post & E' & Hpost & Hlast).
  exists pre, post. split; [rewrite <- E'; exact E|].
  split; [exact Hpre|]. split; [exact Hpost|]. split; [|exact Hlast].
  intros c r Ec. destruct (Str.lstrip s) as [|c' l] eqn:El; [discriminate|].
  pose proof (Hhead c' l eq_refl) as Hc'.
  rewrite (rstrip_head c' l Hc') in Ec. inversion Ec; subst. exact Hc'.
Qed.

(** Trimming has one result, the one of [strip]. *)
Lemma trimmed_strip (s t : string) : trimmed s t -> Str.strip s = t.
Proof.
  intros (pre & post & E & Hpre & Hpost & Hhead & Hlast). subst s.
  unfold Str.strip. rewrite (lstrip_app_space pre _ Hpre).
  destruct t as [|c r].
  - simpl. rewrite (lstrip_all_space post Hpost). reflexivity.
  - simpl. rewrite (Hhead c r eq_refl).
    change (String c (r ++ post)) with (String c r ++ post).
    rewrite (rstrip_app_space _ post Hpost).
    apply rstrip_fixed. exact Hlast.
Qed.

Lemma keep_char_filename_char (c : ascii) :
  Audiobook.keep_char c = filename_char c.
Proof.
  unfold Audiobook.keep_char, filename_char.
  destruct (Ascii.eqb c "-"), (Str.isword c), (Ascii.eqb c "."); reflexivity.
Qed.

Lemma filter_ext (p q : ascii -> bool) (s : string) :
  (forall c, p c = q c) -> Str.filter p s = Str.filter q s.
Proof.
  intros Hpq. induction s as [|c s IH]; simpl; [reflexivity|].
  rewrite Hpq, IH. reflexivity.
Qed.

Lemma filter_all_chars (p : ascii -> bool) (s : string) :
  all_chars p (Str.filter p s) = true.
Proof.
  induction s as [|c s IH]; simpl; [reflexivity|].
  destruct (p c) eqn:Hc; simpl; [rewrite Hc|]; exact IH.
Qed.

(** C7: every title can be trimmed, in one way; the sanitized name is the
    trimmed title with each space turned into an underscore and then every
    character dropped that is not a word character, a hyphen or a period;
    only such characters remain; and ["  My Chapter: One! "] gives
    ["My_Chapter_One"]. *)
Theorem sanitize_filename_spec :
  (forall filename, exists core, trimmed filename core)
  /\ (forall filename core,
        trimmed filename core ->
        Audiobook._sanitize_filename filename
        = Str.filter filename_char (Str.replace " " "_" core))
  /\ (forall filename,
        all_chars filename_char (Audiobook._sanitize_filename filename) = true)
  /\ Audiobook._sanitize_filename "  My Chapter: One! " = "My_Chapter_One".
Proof.
  split; [|split; [|split]].
  - intros filename. exists (Str.strip filename). apply strip_trimmed.
  - intros filename core Hcore. unfold Audiobook._sanitize_filename.
    rewrite (trimmed_strip _ _ Hcore).
    apply filter_ext, keep_char_filename_char.
  - intros filename. unfold Audiobook._sanitize_filename.
    rewrite (filter_ext _ _ _ keep_char_filename_char).
    apply filter_all_chars.
  - reflexivity.
Qed.

(** ** [Audiobook._split] *)

(** C2: splitting a chapter whose end is the sentinel runs the splitter
    once, on the file and from the time of the start anchor, with no end
    time; else, when both anchors are in one file, it runs the splitter once
    with both times; else it raises [NotImplementedError] and runs
    nothing. *)
Theorem split_three_ways `{Host}
    (idx : Z) (chapter : Chapter.t) (out_path : string) (st : Interp) :
  let start := Chapter.start_anchor chapter in
  let end_ := Chapter.end_anchor chapter in
  let target :=
    os_path.join out_path
      (Audiobook._sanitize_filename (Str.of_int idx ++ " " ++ Chapter.title chapter)
       ++ ".mp3") in
  let ran ff :=
    (ffmpeg_exit ff,
     {| next_id := next_id st; ffmpeg_runs := (ffmpeg_runs st ++ [ff])%list |}) in
  (Anchor.is_ end_ Anchor.Unknown = true ->
   Audiobook._split idx chapter out_path st
   = ran (splitter (Anchor.filepath start) (Anchor.time start) None target))
  /\ (Anchor.is_ end_ Anchor.Unknown = false ->
      Anchor.filepath start = Anchor.filepath end_ ->
      Audiobook._split idx chapter out_path st
      = ran (splitter (Anchor.filepath start) (Anchor.time start)
               (Some (Anchor.time end_)) target))
  /\ (Anchor.is_ end_ Anchor.Unknown = false ->
      Anchor.filepath start <> Anchor.filepath end_ ->
      Audiobook._split idx chapter out_path st
      = (Raise (NotImplementedError "Merging of files is not supported yet"),
         st)).
Proof.
  cbv zeta. unfold Audiobook._split. repeat split.
  - intros Hend. rewrite Hend. reflexivity.
  - intros Hend Hfile. rewrite Hend.
    apply String.eqb_eq in Hfile. rewrite Hfile. reflexivity.
  - intros Hend Hfile. rewrite Hend.
    apply String.eqb_neq in Hfile. rewrite Hfile. reflexivity.
Qed.

(** The three cases at work.  In the example of the specification the first
    chapter ends in its own file and the second at the sentinel; in the
    book whose second part starts ten seconds into its first marker, the
    first chapter ends in the second file and cannot be split. *)
Lemma split_examples :
  Audiobook._split (H := example_host) 1
    (Chapter.__init__ "Ch1" (anchor_at 1 "/b/file1" "00" "00" "00")
       (anchor_at 2 "/b/file1" "00" "10" "00"))
    "/b/out" loaded
  = (Ok tt,
     {| next_id := 1;
        ffmpeg_runs :=
          [splitter "/b/file1" "00:00:00" (Some "00:10:00")
             "/b/out/1_Ch1.mp3"] |})
  /\ Audiobook._split (H := example_host) 2
       (Chapter.__init__ "Ch2" (anchor_at 2 "/b/file1" "00" "10" "00")
          Anchor.Unknown)
       "/b/out" loaded
     = (Ok tt,
        {| next_id := 1;
           ffmpeg_runs :=
             [splitter "/b/file1" "00:10:00" None "/b/out/2_Ch2.mp3"] |})
  /\ Audiobook.merged_chapters straddling_book
     = Ok [ Chapter.__init__ "A" (anchor_at 1 "/s/1.mp3" "00" "00" "00")
              (anchor_at 2 "/s/2.mp3" "00" "00" "10");
            Chapter.__init__ "B" (anchor_at 2 "/s/2.mp3" "00" "00" "10")
              Anchor.Unknown ]
  /\ Audiobook._split (H := example_host) 1
       (Chapter.__init__ "A" (anchor_at 1 "/s/1.mp3" "00" "00" "00")
          (anchor_at 2 "/s/2.mp3" "00" "00" "10"))
       "/s/out" loaded
     = (Raise (NotImplementedError "Merging of files is not supported yet"),
        loaded).
Proof. repeat split; vm_compute; reflexivity. Qed.

(** ** The sentinel [Anchor.Unknown] *)

(** Allocating an anchor keeps the program running. *)
Lemma init_running `{Host} (filepath time : string) (st : Interp) :
  running st -> running (snd (Anchor.__init__ filepath time st)).
Proof.
  unfold running, Anchor.__init__. intros Hst.
  destruct (if negb (String.eqb (Str.strip time) "")
            then Anchor._split_time time else Ok ("", "", ""))
    as [[[hh mm] ss]|e]; simpl; lia.
Qed.

(** An anchor allocated once the module is loaded is not the sentinel. *)
Lemma allocated_is_not_unknown `{Host}
    (filepath time : string) (st st' : Interp) (a : Anchor.t) :
  running st ->
  Anchor.__init__ filepath time st = (Ok a, st') ->
  Anchor.is_ a Anchor.Unknown = false.
Proof.
  unfold running, Anchor.__init__, Anchor.is_. intros Hst.
  destruct (if negb (String.eqb (Str.strip time) "")
            then Anchor._split_time time else Ok ("", "", ""))
    as [[[hh mm] ss]|e]; intros E; inversion E; subst; simpl.
  apply Nat.eqb_neq. lia.
Qed.

(** C8: [is_end_known] tells whether the end is another object than the
    sentinel; an anchor built from an empty path and an empty time once the
    module is loaded has the path and the time of the sentinel and is
    another object, so a chapter that ends there has a known end, while a
    chapter that ends at the sentinel has not. *)
Theorem unknown_by_identity `{Host}
    (st : Interp) (title : string) (start : Anchor.t) :
  running st ->
  (forall c : Chapter.t,
     Chapter.is_end_known c = true
     <-> Anchor.id (Chapter.end_anchor c) <> Anchor.id Anchor.Unknown)
  /\ exists a st',
       Anchor.__init__ "" "" st = (Ok a, st')
       /\ Anchor.filepath a = Anchor.filepath Anchor.Unknown
       /\ Anchor.time a = Anchor.time Anchor.Unknown
       /\ Anchor.is_ a Anchor.Unknown = false
       /\ Chapter.is_end_known (Chapter.__init__ title start a) = true
       /\ Chapter.is_end_known (Chapter.__init__ title start Anchor.Unknown)
          = false.
Proof.
  intros Hst. split.
  - intros c. unfold Chapter.is_end_known, Chapter.end_anchor, Anchor.is_.
    rewrite negb_true_iff. apply Nat.eqb_neq.
  - pose proof (init_returns "" "" "" "" "" st eq_refl) as E.
    cbn [negb String.eqb] in E.
    eexists. eexists. split; [exact E|].
    pose proof (allocated_is_not_unknown _ _ _ _ _ Hst E) as Hid.
    split; [reflexivity|]. split; [reflexivity|]. split; [exact Hid|].
    split; [|reflexivity].
    unfold Chapter.is_end_known, Chapter.__init__. cbn [Chapter._end].
    rewrite Hid. reflexivity.
Qed.

Lemma unknown_by_identity_witness :
  running loaded
  /\ (forall c : Chapter.t,
        Chapter.is_end_known c = true
        <-> Anchor.id (Chapter.end_anchor c) <> Anchor.id Anchor.Unknown)
  /\ exists a st',
       Anchor.__init__ (H := example_host) "" "" loaded = (Ok a, st')
       /\ Anchor.filepath a = Anchor.filepath Anchor.Unknown
       /\ Anchor.time a = Anchor.time Anchor.Unknown
       /\ Anchor.is_ a Anchor.Unknown = false
       /\ Chapter.is_end_known
            (Chapter.__init__ "Ch1" (anchor_at 1 "/b/file1" "00" "00" "00") a)
          = true
       /\ Chapter.is_end_known
            (Chapter.__init__ "Ch1" (anchor_at 1 "/b/file1" "00" "00" "00")
               Anchor.Unknown)
          = false.
Proof.
  assert (Hst : running loaded) by (unfold running; simpl; lia).
  split; [exact Hst|].
  exact (unknown_by_identity (H := example_host) loaded "Ch1"
           (anchor_at 1 "/b/file1" "00" "00" "00") Hst).
Defined.

(** ** [Audiobook.merged_chapters] *)

Lemma all_chapters_some (parts : list AudiobookPart.t)
    (ls : list (list Chapter.t)) :
  List.map AudiobookPart._chapters parts = List.map Some ls ->
  Audiobook.all_chapters parts = Ok (concatenated ls).
Proof.
  revert ls. induction parts as [|p parts IH]; intros [|l ls] E;
    try discriminate; [reflexivity|].
  simpl in E. inversion E as [[Ep Eparts]].
  simpl. unfold AudiobookPart.__iter__. rewrite Ep. simpl.
  rewrite (IH ls Eparts). reflexivity.
Qed.

(** A part without a chapter list stops the first loop. *)
Lemma all_chapters_none (parts : list AudiobookPart.t) (p : AudiobookPart.t) :
  In p parts -> AudiobookPart._chapters p = None ->
  Audiobook.all_chapters parts = Raise TypeError.
Proof.
  intros Hin Hp. induction parts as [|q parts IH]; [contradiction|].
  simpl. unfold AudiobookPart.__iter__.
  destruct Hin as [-> | Hin].
  - rewrite Hp. reflexivity.
  - destruct (AudiobookPart._chapters q); [|reflexivity].
    simpl. rewrite (IH Hin). reflexivity.
Qed.

Lemma neighbours_cons (c next : Chapter.t) (rest : list Chapter.t) :
  neighbours (c :: next :: rest) = (c, next) :: neighbours (next :: rest).
Proof. reflexivity. Qed.

Lemma last_item_cons {A : Type} (a b : A) (l : list A) :
  Audiobook.last_item (a :: b :: l) = Audiobook.last_item (b :: l).
Proof.
  unfold Audiobook.last_item. simpl.
  destruct (rev l ++ [b])%list as [|x xs] eqn:E; [|reflexivity].
  destruct (rev l); discriminate.
Qed.

Lemma merge_list_cons (c next : Chapter.t) (rest : list Chapter.t) :
  merge_list (c :: next :: rest)
  = (m <- Audiobook.merge_pair (c, next) ;;
     more <- merge_list (next :: rest) ;;
     Ok (m :: more)).
Proof. reflexivity. Qed.

Lemma for_each_cons {A B : Type} (body : A -> result B) (a : A) (l : list A) :
  for_each body (a :: l)
  = (b <- body a ;; bs <- for_each body l ;; Ok (b :: bs)).
Proof. simpl. destruct (body a); reflexivity. Qed.

(** The two loops and the final chapter, as one recursion. *)
Lemma merge_loops (chapters : list Chapter.t) :
  (merged <- for_each Audiobook.merge_pair (neighbours chapters) ;;
   final <- Audiobook.last_item chapters ;;
   Ok (merged ++ [final_chapter final])%list)
  = merge_list chapters.
Proof.
  induction chapters as [|c [|next rest] IH]; try reflexivity.
  rewrite neighbours_cons, last_item_cons, merge_list_cons, for_each_cons.
  rewrite <- IH. unfold bind.
  destruct (Audiobook.merge_pair (c, next)) as [m|e]; [|reflexivity].
  destruct (for_each Audiobook.merge_pair (neighbours (next :: rest)))
    as [ms|e]; [|reflexivity].
  destruct (Audiobook.last_item (next :: rest)); reflexivity.
Qed.

Lemma merged_chapters_unfold (self : Audiobook.t) :
  Audiobook.merged_chapters self
  = (chapters <- Audiobook.all_chapters (Audiobook._parts self) ;;
     merge_list chapters).
Proof.
  unfold Audiobook.merged_chapters, bind.
  destruct (Audiobook.all_chapters (Audiobook._parts self)) as [cs|e];
    [|reflexivity].
  apply (merge_loops cs).
Qed.

(** The merged chapter of a chapter that has a successor. *)
Lemma merge_pair_returns (c next : Chapter.t) (b : bool) :
  Anchor.is_start_anchor (Chapter.start_anchor next) = Ok b ->
  Audiobook.merge_pair (c, next)
  = Ok (Chapter.__init__ (Chapter.title c) (Chapter.start_anchor c)
          (if b then Anchor.Unknown else Chapter.start_anchor next)).
Proof. intros E. unfold Audiobook.merge_pair. rewrite E. reflexivity. Qed.

Lemma merge_pair_raises (c next : Chapter.t) (e : exn) :
  Anchor.is_start_anchor (Chapter.start_anchor next) = Raise e ->
  Audiobook.merge_pair (c, next) = Raise e.
Proof. intros E. unfold Audiobook.merge_pair. rewrite E. reflexivity. Qed.

(** The recursion returns one chapter per chapter when the start of every
    chapter after the first can be tested. *)
Lemma merge_list_returns (chapters : list Chapter.t) :
  chapters <> [] ->
  (forall i c,
     (0 < i)%nat -> nth_error chapters i = Some c ->
     exists b, Anchor.is_start_anchor (Chapter.start_anchor c) = Ok b) ->
  exists merged,
    merge_list chapters = Ok merged
    /\ List.length merged = List.length chapters
    /\ (forall i c next,
          nth_error chapters i = Some c ->
          nth_error chapters (S i) = Some next ->
          exists b,
            Anchor.is_start_anchor (Chapter.start_anchor next) = Ok b
            /\ nth_error merged i
               = Some (Chapter.__init__ (Chapter.title c)
                         (Chapter.start_anchor c)
                         (if b then Anchor.Unknown
                          else Chapter.start_anchor next)))
    /\ (forall c,
          nth_error chapters (List.length chapters - 1) = Some c ->
          nth_error merged (List.length chapters - 1)
          = Some (final_chapter c)).
Proof.
  induction chapters as [|c [|next rest] IH]; intros Hne Htest.
  - congruence.
  - exists [final_chapter c]. repeat split.
    + intros [|i] c0 n0 _ E; [discriminate | destruct i; discriminate].
    + intros c0 E. inversion E; subst. reflexivity.
  - destruct (Htest 1%nat next ltac:(lia) eq_refl) as [b Hb].
    destruct IH as (more & Emore & Hlen & Hpairs & Hlast); [discriminate| |].
    { intros i c0 Hi E. apply (Htest (S i) c0); [lia | exact E]. }
    eexists. rewrite merge_list_cons, (merge_pair_returns c next b Hb), Emore.
    split; [reflexivity|]. split; [simpl in *; lia|]. split.
    + intros [|i] c0 n0 E0 E1.
      * inversion E0; subst c0. inversion E1; subst n0.
        exists b. split; [exact Hb | reflexivity].
      * exact (Hpairs i c0 n0 E0 E1).
    + intros c0 E. cbn [List.length] in *.
      replace (S (S (List.length rest)) - 1)%nat
        with (S (S (List.length rest) - 1)) in * by lia.
      exact (Hlast c0 E).
Qed.

(** The recursion raises when the start of some chapter after the first
    cannot be tested. *)
Lemma merge_list_raises (chapters : list Chapter.t) (i : nat) (c : Chapter.t)
    (e : exn) :
  (0 < i)%nat -> nth_error chapters i = Some c ->
  Anchor.is_start_anchor (Chapter.start_anchor c) = Raise e ->
  exists e', merge_list chapters = Raise e'.
Proof.
  revert i. induction chapters as [|c0 [|next rest] IH]; intros i Hi Ec He.
  - destruct i; discriminate.
  - destruct i as [|[|i]]; [lia | discriminate | discriminate].
  - rewrite merge_list_cons. unfold bind.
    destruct (Audiobook.merge_pair (c0, next)) as [m|e0] eqn:Em; [|eauto].
    destruct i as [|[|i]]; [lia | |].
    + inversion Ec; subst c.
      rewrite (merge_pair_raises c0 next e He) in Em. discriminate.
    + destruct (IH (S i) ltac:(lia) Ec He) as [e' E']. rewrite E'. eauto.
Qed.

(** C1, as the code has it: when every part has a chapter list, the
    chapters of the book, in the order of the parts and of their markers,
    are not empty, and the start of every chapter after the first can be
    tested by [is_start_anchor] (its minutes read as an integer and, when
    they are 0, its seconds as a float), [merged_chapters] returns as many
    chapters as there are: each chapter that has a successor keeps its
    title and start and ends at [Anchor.Unknown] when the start of the
    successor is a start anchor, at that start otherwise; the last chapter
    ends at [Anchor.Unknown]. *)
Theorem merged_chapters_spec
    (self : Audiobook.t) (ls : list (list Chapter.t)) :
  List.map AudiobookPart._chapters (Audiobook._parts self) = List.map Some ls ->
  concatenated ls <> [] ->
  (forall i c,
     (0 < i)%nat -> nth_error (concatenated ls) i = Some c ->
     exists b, Anchor.is_start_anchor (Chapter.start_anchor c) = Ok b) ->
  exists merged,
    Audiobook.merged_chapters self = Ok merged
    /\ List.length merged = List.length (concatenated ls)
    /\ (forall i c next,
          nth_error (concatenated ls) i = Some c ->
          nth_error (concatenated ls) (S i) = Some next ->
          exists b,
            Anchor.is_start_anchor (Chapter.start_anchor next) = Ok b
            /\ nth_error merged i
               = Some (Chapter.__init__ (Chapter.title c)
                         (Chapter.start_anchor c)
                         (if b then Anchor.Unknown
                          else Chapter.start_anchor next)))
    /\ (forall c,
          nth_error (concatenated ls) (List.length (concatenated ls) - 1)
          = Some c ->
          nth_error merged (List.length (concatenated ls) - 1)
          = Some (Chapter.__init__ (Chapter.title c) (Chapter.start_anchor c)
                    Anchor.Unknown)).
Proof.
  intros Hparts Hne Htest.
  rewrite merged_chapters_unfold, (all_chapters_some _ _ Hparts).
  exact (merge_list_returns (concatenated ls) Hne Htest).
Qed.

(** Every start of the example can be tested. *)
Lemma example_chapters_tested (i : nat) (c : Chapter.t) :
  (0 < i)%nat -> nth_error example_chapters i = Some c ->
  exists b, Anchor.is_start_anchor (Chapter.start_anchor c) = Ok b.
Proof.
  intros _ E.
  destruct i as [|[|[|[|i]]]]; try (destruct i; discriminate);
    inversion E; subst; eexists; vm_compute; reflexivity.
Defined.

Lemma merged_chapters_spec_witness :
  List.map AudiobookPart._chapters (Audiobook._parts example_book)
  = List.map Some [firstn 2 example_chapters; skipn 2 example_chapters]
  /\ concatenated [firstn 2 example_chapters; skipn 2 example_chapters] <> []
  /\ exists merged,
       Audiobook.merged_chapters example_book = Ok merged
       /\ List.length merged = 4%nat
       /\ List.map Chapter.end_anchor merged
          = [anchor_at 2 "/b/file1" "00" "10" "00"; Anchor.Unknown;
             anchor_at 4 "/b/file2" "00" "05" "00"; Anchor.Unknown].
Proof.
  split; [reflexivity|]. split; [discriminate|].
  destruct (merged_chapters_spec example_book
              [firstn 2 example_chapters; skipn 2 example_chapters]
              eq_refl ltac:(discriminate) example_chapters_tested)
    as (merged & E & Hlen & _).
  exists merged. split; [exact E|]. split; [exact Hlen|].
  assert (Em : Audiobook.merged_chapters example_book
               = Ok [Chapter.__init__ "Ch1" (anchor_at 1 "/b/file1" "00" "00" "00")
                       (anchor_at 2 "/b/file1" "00" "10" "00");
                     Chapter.__init__ "Ch2" (anchor_at 2 "/b/file1" "00" "10" "00")
                       Anchor.Unknown;
                     Chapter.__init__ "Ch3" (anchor_at 3 "/b/file2" "00" "00" "00")
                       (anchor_at 4 "/b/file2" "00" "05" "00");
                     Chapter.__init__ "Ch4" (anchor_at 4 "/b/file2" "00" "05" "00")
                       Anchor.Unknown])
    by (vm_compute; reflexivity).
  rewrite Em in E. inversion E; subst. reflexivity.
Defined.

(** C1 as the specification words it fails on the book of directory
    [/odd]: it has two chapters, the second starts at [a:b:c], and
    [merged_chapters] raises [ValueError]. *)
Lemma merged_chapters_odd_counterexample :
  fst (Audiobook.__init__ (H := example_host) "/odd" loaded) = Ok odd_book
  /\ List.map AudiobookPart._chapters (Audiobook._parts odd_book)
     = List.map Some [odd_chapters]
  /\ List.length (concatenated [odd_chapters]) = 2%nat
  /\ Audiobook.merged_chapters odd_book = Raise ValueError.
Proof.
  split; [exact odd_book_built|]. repeat split.
Qed.

(** When the start of a chapter after the first cannot be tested,
    [merged_chapters] raises. *)
Lemma merged_chapters_untested
    (self : Audiobook.t) (ls : list (list Chapter.t))
    (i : nat) (c : Chapter.t) (e : exn) :
  List.map AudiobookPart._chapters (Audiobook._parts self) = List.map Some ls ->
  (0 < i)%nat -> nth_error (concatenated ls) i = Some c ->
  Anchor.is_start_anchor (Chapter.start_anchor c) = Raise e ->
  exists e', Audiobook.merged_chapters self = Raise e'.
Proof.
  intros Hparts Hi Ec He.
  rewrite merged_chapters_unfold, (all_chapters_some _ _ Hparts).
  exact (merge_list_raises _ i c e Hi Ec He).
Qed.

(** C10: when the parts have chapter lists and these hold no chapter at
    all, [merged_chapters] does not return the empty list: it raises
    [IndexError]. *)
Theorem merged_chapters_needs_a_chapter
    (self : Audiobook.t) (ls : list (list Chapter.t)) :
  List.map AudiobookPart._chapters (Audiobook._parts self) = List.map Some ls ->
  concatenated ls = [] ->
  Audiobook.merged_chapters self = Raise IndexError.
Proof.
  intros Hparts Hnone. rewrite merged_chapters_unfold.
  rewrite (all_chapters_some _ _ Hparts), Hnone. reflexivity.
Qed.

Lemma merged_chapters_needs_a_chapter_witness :
  List.map AudiobookPart._chapters [part_of_no_chapter; part_of_no_chapter]
  = List.map Some [[]; []]
  /\ concatenated [[]; []] = []
  /\ Audiobook.merged_chapters
       {| Audiobook._dirpath := "/e";
          Audiobook._parts := [part_of_no_chapter; part_of_no_chapter] |}
     = Raise IndexError.
Proof.
  split; [reflexivity|]. split; [reflexivity|].
  apply (merged_chapters_needs_a_chapter
           {| Audiobook._dirpath := "/e";
              Audiobook._parts := [part_of_no_chapter; part_of_no_chapter] |}
           [[]; []]);
    reflexivity.
Defined.

(** A book without any part has no chapter either. *)
Lemma merged_chapters_of_no_part (dirpath : string) :
  Audiobook.merged_chapters
    {| Audiobook._dirpath := dirpath; Audiobook._parts := [] |}
  = Raise IndexError.
Proof. reflexivity. Qed.

(** ** A part without markers *)

(** For every host: a file whose tag has no marker frame gives a part whose
    chapter list is [None]. *)
Lemma part_without_marker_frame `{Host}
    (filepath : string) (tag : eyed3.Tag) (st : Interp) :
  eyed3_load (os_path_abspath filepath)
  = Ok (Some {| eyed3.tag := Some tag |}) ->
  Forall
    (fun frame =>
       Str.strip (Str.lower (eyed3.description frame))
       <> "overdrive mediamarkers")
    (eyed3.user_text_frames tag) ->
  AudiobookPart.__init__ filepath st
  = (Ok {| AudiobookPart._filepath := os_path_abspath filepath;
           AudiobookPart._chapters := None |}, st).
Proof.
  intros Hload Hframes.
  unfold AudiobookPart.__init__, AudiobookPart._read_chapters,
    AudiobookPart._read_raw_markers, bindM, lift.
  rewrite Hload. simpl.
  replace (List.find _ (eyed3.user_text_frames tag)) with
    (@None eyed3.UserTextFrame); [reflexivity|].
  symmetry. induction Hframes as [|f fs Hf _ IH]; [reflexivity|].
  simpl. apply String.eqb_neq in Hf. rewrite Hf. exact IH.
Qed.

(** The chapter list of such a part cannot be read, and the part stops
    [merged_chapters] wherever it stands in the book. *)
Lemma part_without_chapters_raises (self : Audiobook.t) (p : AudiobookPart.t) :
  AudiobookPart._chapters p = None ->
  AudiobookPart.chapters p = Raise TypeError
  /\ AudiobookPart.__iter__ p = Raise TypeError
  /\ (In p (Audiobook._parts self) ->
      Audiobook.merged_chapters self = Raise TypeError).
Proof.
  intros Hp. unfold AudiobookPart.chapters, AudiobookPart.__iter__.
  rewrite Hp. repeat split. intros Hin.
  rewrite merged_chapters_unfold, (all_chapters_none _ _ Hin Hp). reflexivity.
Qed.

(** C6, on the code: for [/book/02.mp3], whose tag has no marker frame, the
    part is built without error, with [None] for its chapters; reading its
    chapter list raises [TypeError], and so does [merged_chapters] on the
    book of directory [/book], which holds this part. *)
Theorem part_without_markers_raises :
  AudiobookPart.__init__ (H := example_host) "/book/02.mp3" loaded
  = (Ok part_without_markers, loaded)
  /\ AudiobookPart._chapters part_without_markers = None
  /\ AudiobookPart.chapters part_without_markers = Raise TypeError
  /\ AudiobookPart.__iter__ part_without_markers = Raise TypeError
  /\ exists book,
       fst (Audiobook.__init__ (H := example_host) "/book" loaded) = Ok book
       /\ In part_without_markers (Audiobook._parts book)
       /\ Audiobook.merged_chapters book = Raise TypeError.
Proof.
  split; [exact part_without_markers_built|].
  split; [reflexivity|]. split; [reflexivity|]. split; [reflexivity|].
  eexists. split; [vm_compute; reflexivity|].
  split; [right; left; reflexivity|]. reflexivity.
Qed.

(** ** The order of strings and [sorted] *)

Lemma ascii_compare_lt_trans (x y z : ascii) :
  Ascii.compare x y = Lt -> Ascii.compare y z = Lt -> Ascii.compare x z = Lt.
Proof.
  unfold Ascii.compare. rewrite !N.compare_lt_iff. apply N.lt_trans.
Qed.

Lemma string_leb_trans (a b c : string) :
  String.leb a b = true -> String.leb b c = true -> String.leb a c = true.
Proof.
  unfold String.leb. revert b c.
  induction a as [|x a IH]; intros [|y b] [|z c]; simpl; try congruence.
  destruct (Ascii.compare x y) eqn:Exy; try discriminate.
  - apply Ascii.compare_eq_iff in Exy. subst y.
    destruct (Ascii.compare x z); try congruence. apply IH.
  - destruct (Ascii.compare y z) eqn:Eyz; try discriminate.
    + apply Ascii.compare_eq_iff in Eyz. subst z. rewrite Exy. congruence.
    + rewrite (ascii_compare_lt_trans _ _ _ Exy Eyz). congruence.
Qed.

Lemma insert_perm (x : string) (l : list string) :
  Permutation (x :: l) (insert x l).
Proof.
  induction l as [|y l IH]; simpl; [apply Permutation_refl|].
  destruct (String.leb x y); [apply Permutation_refl|].
  eapply perm_trans; [apply perm_swap|]. apply perm_skip, IH.
Qed.

Lemma sorted_perm (l : list string) : Permutation l (sorted l).
Proof.
  induction l as [|x l IH]; simpl; [apply perm_nil|].
  eapply perm_trans; [apply perm_skip, IH | apply insert_perm].
Qed.

Lemma insert_sorted (x : string) (l : list string) :
  StronglySorted string_le l -> StronglySorted string_le (insert x l).
Proof.
  induction 1 as [|y l Hl IH Hy]; simpl.
  - repeat constructor.
  - destruct (String.leb x y) eqn:E.
    + constructor; [constructor; assumption|].
      constructor; [exact E|].
      eapply Forall_impl; [|exact Hy].
      intros z Hz. exact (string_leb_trans _ _ _ E Hz).
    + constructor; [exact IH|].
      eapply Permutation_Forall; [apply insert_perm|].
      constructor; [|exact Hy].
      destruct (String.leb_total x y) as [T|T]; [congruence|exact T].
Qed.

Lemma sorted_sorted (l : list string) : StronglySorted string_le (sorted l).
Proof.
  induction l as [|x l IH]; simpl; [constructor | apply insert_sorted, IH].
Qed.

Lemma filter_sorted (p : string -> bool) (l : list string) :
  StronglySorted string_le l -> StronglySorted string_le (List.filter p l).
Proof.
  induction 1 as [|y l Hl IH Hy]; simpl; [constructor|].
  destruct (p y); [|exact IH].
  constructor; [exact IH|].
  apply Forall_forall. intros z Hz. apply filter_In in Hz.
  rewrite Forall_forall in Hy. apply Hy, Hz.
Qed.

Lemma filter_perm (p : string -> bool) (l l' : list string) :
  Permutation l l' -> Permutation (List.filter p l) (List.filter p l').
Proof.
  induction 1 as [| x l l' _ IH | x y l | l l' l'' _ IH1 _ IH2]; simpl.
  - apply perm_nil.
  - destruct (p x); [apply perm_skip|]; exact IH.
  - destruct (p x), (p y); try apply Permutation_refl. apply perm_swap.
  - eapply perm_trans; eassumption.
Qed.

(** ** [str.endswith] *)

Lemma substring_skip (pre s : string) (m : nat) :
  String.substring (String.length pre) m (pre ++ s) = String.substring 0 m s.
Proof. induction pre as [|c pre IH]; simpl; [reflexivity | exact IH]. Qed.

Lemma substring_all (s : string) :
  String.substring 0 (String.length s) s = s.
Proof. induction s as [|c s IH]; simpl; [reflexivity | rewrite IH; reflexivity]. Qed.

Lemma substring_tail (s : string) (k : nat) :
  exists stem, s = stem ++ String.substring k (String.length s - k) s.
Proof.
  revert k. induction s as [|c s IH]; intros [|k].
  - exists "". reflexivity.
  - exists "". reflexivity.
  - exists "". rewrite Nat.sub_0_r, substring_all. reflexivity.
  - destruct (IH k) as [stem E]. exists (String c stem).
    simpl. rewrite <- E. reflexivity.
Qed.

Lemma endswith_iff (s suffix : string) :
  Str.endswith s suffix = true <-> has_suffix suffix s.
Proof.
  unfold Str.endswith, has_suffix. rewrite andb_true_iff, String.eqb_eq. split.
  - intros [Hlen E]. apply Nat.leb_le in Hlen.
    destruct (substring_tail s (String.length s - String.length suffix))
      as [stem Es].
    replace (String.length s - (String.length s - String.length suffix))%nat
      with (String.length suffix) in Es by lia.
    rewrite E in Es. exists stem. exact Es.
  - intros [stem ->]. rewrite append_length. split; [apply Nat.leb_le; lia|].
    replace (String.length stem + String.length suffix - String.length suffix)%nat
      with (String.length stem) by lia.
    rewrite substring_skip. apply substring_all.
Qed.

(** ** [Audiobook._read_dir] *)

(** C9, as the code has it: the files of the book are the entries of the
    directory whose name ends with a period and the extension as it is
    given, or with that suffix in upper case; they come in the sorted order
    of their names, each joined to the directory. *)
Theorem read_dir_spec `{Host} (dirname ext : string) (listing : list string) :
  os_listdir dirname = Ok listing ->
  exists names,
    Audiobook._read_dir dirname ext
    = Ok (List.map (os_path.join dirname) names)
    /\ StronglySorted string_le names
    /\ Permutation names
         (List.filter
            (fun f =>
               Str.endswith f ("." ++ ext)
               || Str.endswith f (Str.upper ("." ++ ext)))
            listing)
    /\ (forall f,
          In f names
          <-> In f listing
              /\ (has_suffix ("." ++ ext) f
                  \/ has_suffix (Str.upper ("." ++ ext)) f)).
Proof.
  intros Hlist. unfold Audiobook._read_dir. rewrite Hlist. simpl bind.
  eexists. split; [reflexivity|]. split; [|split].
  - apply filter_sorted, sorted_sorted.
  - apply filter_perm, Permutation_sym, sorted_perm.
  - intros f. rewrite filter_In, orb_true_iff, !endswith_iff.
    split; intros [Hin Hsuf]; (split; [|exact Hsuf]).
    + eapply Permutation_in; [apply Permutation_sym, sorted_perm | exact Hin].
    + eapply Permutation_in; [apply sorted_perm | exact Hin].
Qed.

Lemma read_dir_spec_witness :
  os_listdir (Host := example_host) "/book"
  = Ok ["02.mp3"; "cover.jpg"; "01.MP3"; "03.Mp3"]
  /\ exists names,
       Audiobook._read_dir (H := example_host) "/book" "mp3"
       = Ok (List.map (os_path.join "/book") names)
       /\ StronglySorted string_le names
       /\ Permutation names
            (List.filter
               (fun f =>
                  Str.endswith f ("." ++ "mp3")
                  || Str.endswith f (Str.upper ("." ++ "mp3")))
               ["02.mp3"; "cover.jpg"; "01.MP3"; "03.Mp3"])
       /\ (forall f,
             In f names
             <-> In f ["02.mp3"; "cover.jpg"; "01.MP3"; "03.Mp3"]
                 /\ (has_suffix ("." ++ "mp3") f
                     \/ has_suffix (Str.upper ("." ++ "mp3")) f)).
Proof.
  split; [reflexivity|].
  exact (read_dir_spec (H := example_host) "/book" "mp3"
           ["02.mp3"; "cover.jpg"; "01.MP3"; "03.Mp3"] eq_refl).
Defined.

(** C9 as the specification words it fails on a mixed-case extension: in
    directory [/book] the entry [03.Mp3] has the extension [mp3], letter
    case apart, and is not among the files read. *)
Lemma mixed_case_extension_counterexample :
  os_listdir (Host := example_host) "/book"
  = Ok ["02.mp3"; "cover.jpg"; "01.MP3"; "03.Mp3"]
  /\ has_extension_nocase "mp3" "03.Mp3" = true
  /\ Audiobook._read_dir (H := example_host) "/book" "mp3"
     = Ok ["/book/01.MP3"; "/book/02.mp3"].
Proof. repeat split. Qed.

(** ** The parts of a book follow its files *)

Lemma part_init_filepath `{Host}
    (filepath : string) (st st' : Interp) (p : AudiobookPart.t) :
  AudiobookPart.__init__ filepath st = (Ok p, st') ->
  AudiobookPart.filepath p = os_path_abspath filepath.
Proof.
  unfold AudiobookPart.__init__, bindM, ret.
  destruct (AudiobookPart._read_chapters (os_path_abspath filepath) st)
    as [[chapters|e] st1]; intros E; inversion E; reflexivity.
Qed.

Lemma parts_of_files `{Host}
    (files : list string) (st st' : Interp) (parts : list AudiobookPart.t) :
  for_eachM AudiobookPart.__init__ files st = (Ok parts, st') ->
  List.map AudiobookPart.filepath parts = List.map os_path_abspath files.
Proof.
  revert st parts. induction files as [|f files IH]; intros st parts.
  - intros E. inversion E. reflexivity.
  - cbn [for_eachM]. unfold bindM at 1.
    destruct (AudiobookPart.__init__ f st) as [[p|e] st1] eqn:Ep;
      [|discriminate].
    unfold bindM, ret.
    destruct (for_eachM AudiobookPart.__init__ files st1) as [[ps|e] st2]
      eqn:Eps; [|discriminate].
    intros E. inversion E; subst. simpl.
    rewrite (part_init_filepath _ _ _ _ Ep), (IH _ _ Eps). reflexivity.
Qed.

(** [Audiobook(dirpath)] has one part per file that [_read_dir] returns for
    the extension [mp3], in the same order. *)
Lemma book_parts_follow_files `{Host}
    (dirpath : string) (st st' : Interp) (book : Audiobook.t) :
  Audiobook.__init__ dirpath st = (Ok book, st') ->
  exists files,
    Audiobook._read_dir (os_path_abspath dirpath) "mp3" = Ok files
    /\ List.map AudiobookPart.filepath (Audiobook._parts book)
       = List.map os_path_abspath files.
Proof.
  unfold Audiobook.__init__, bindM, lift, ret.
  destruct (Audiobook._read_dir (os_path_abspath dirpath) "mp3")
    as [files|e]; [|discriminate].
  destruct (for_eachM AudiobookPart.__init__ files st) as [[ps|e] st1] eqn:Eps;
    [|discriminate].
  intros E. inversion E; subst. exists files. split; [reflexivity|].
  exact (parts_of_files _ _ _ _ Eps).
Qed.

(** ** The chapters a part reads *)

Lemma init_filepath `{Host}
    (filepath time : string) (st st' : Interp) (a : Anchor.t) :
  Anchor.__init__ filepath time st = (Ok a, st') ->
  Anchor.filepath a
  = if negb (String.eqb filepath "") then os_path_abspath filepath else "".
Proof.
  unfold Anchor.__init__.
  destruct (if negb (String.eqb (Str.strip time) "")
            then Anchor._split_time time else Ok ("", "", ""))
    as [[[hh mm] ss]|e]; intros E; inversion E; reflexivity.
Qed.

(** Every chapter read from the markers of a file starts at an anchor of
    that file, which is not the sentinel, and ends at the sentinel; reading
    keeps the program running. *)
Lemma read_markers_invariant `{Host}
    (self_filepath : string) (markers : list ET.Element)
    (st st' : Interp) (chapters : list Chapter.t) :
  running st ->
  for_eachM
    (fun marker =>
       fields <~ lift (AudiobookPart.marker_fields marker) ;;
       start <~ Anchor.__init__ self_filepath (snd fields) ;;
       ret (Chapter.__init__ (fst fields) start Anchor.Unknown))
    markers st
  = (Ok chapters, st') ->
  running st'
  /\ Forall
       (fun c =>
          Anchor.is_ (Chapter.start_anchor c) Anchor.Unknown = false
          /\ Chapter.end_anchor c = Anchor.Unknown
          /\ Anchor.filepath (Chapter.start_anchor c)
             = if negb (String.eqb self_filepath "")
               then os_path_abspath self_filepath else "")
       chapters.
Proof.
  revert st chapters.
  induction markers as [|marker markers IH]; intros st chapters Hst.
  - intros E. inversion E; subst. split; [exact Hst | constructor].
  - cbn [for_eachM]. unfold bindM at 1. unfold bindM at 1. unfold lift at 1.
    destruct (AudiobookPart.marker_fields marker) as [fields|e];
      [|discriminate].
    unfold bindM at 1.
    destruct (Anchor.__init__ self_filepath (snd fields) st)
      as [[a|e] st1] eqn:Ea; [|discriminate].
    unfold ret at 1. unfold bindM at 1.
    pose proof (init_running self_filepath (snd fields) st Hst) as Hst1.
    rewrite Ea in Hst1. simpl in Hst1.
    match goal with
    | |- context [for_eachM ?body markers st1] =>
        destruct (for_eachM body markers st1) as [[cs|e] st2] eqn:Ecs
    end; [|discriminate].
    unfold ret. intros E. inversion E; subst.
    destruct (IH st1 cs Hst1 Ecs) as [Hst' Hcs].
    split; [exact Hst'|]. constructor; [|exact Hcs].
    split; [exact (allocated_is_not_unknown _ _ _ _ _ Hst Ea)|].
    split; [reflexivity|]. exact (init_filepath _ _ _ _ _ Ea).
Qed.

(** On a host whose [abspath] leaves an absolute path as it is, the
    chapters of a part built while the program runs start in the file of
    the part, never at the sentinel, and have no known end. *)
Lemma part_chapters_invariant `{Host}
    (filepath : string) (st st' : Interp) (p : AudiobookPart.t)
    (chapters : list Chapter.t) :
  (forall f, os_path_abspath (os_path_abspath f) = os_path_abspath f) ->
  running st ->
  AudiobookPart.__init__ filepath st = (Ok p, st') ->
  AudiobookPart._chapters p = Some chapters ->
  running st'
  /\ Forall
       (fun c =>
          Chapter.is_end_known c = false
          /\ Anchor.is_ (Chapter.start_anchor c) Anchor.Unknown = false
          /\ Anchor.filepath (Chapter.start_anchor c)
             = AudiobookPart.filepath p)
       chapters.
Proof.
  intros Hidem Hst.
  unfold AudiobookPart.__init__, AudiobookPart._read_chapters.
  unfold bindM at 1. unfold bindM at 1. unfold lift at 1.
  destruct (AudiobookPart._read_raw_markers (os_path_abspath filepath))
    as [[raw|]|e]; try discriminate.
  - unfold bindM at 1. unfold lift at 1.
    destruct (ET_fromstring raw) as [markers|e]; [|discriminate].
    unfold bindM at 1.
    match goal with
    | |- context [for_eachM ?body (ET.children markers) st] =>
        destruct (for_eachM body (ET.children markers) st)
          as [[cs|e] st1] eqn:Ecs
    end; [|discriminate].
    unfold ret. intros E Ec. inversion E; subst. simpl in Ec.
    inversion Ec; subst.
    destruct (read_markers_invariant _ _ _ _ _ Hst Ecs) as [Hst' Hcs].
    split; [exact Hst'|].
    eapply Forall_impl; [|exact Hcs].
    intros c (Hstart & Hend & Hfile). unfold Chapter.is_end_known.
    unfold Chapter.end_anchor in Hend. rewrite Hend.
    split; [reflexivity|]. split; [exact Hstart|].
    rewrite Hfile. unfold AudiobookPart.filepath. cbn [AudiobookPart._filepath].
    destruct (String.eqb (os_path_abspath filepath) "") eqn:Eempty; simpl.
    + apply String.eqb_eq in Eempty. congruence.
    + apply Hidem.
  - unfold ret. intros E Ec. inversion E; subst. discriminate.
Qed.
